(** * map-vision-spy: coordinate conversion, result compositing and
      detection workflow of the frontend

    A shallow embedding of [frontend/app/page.tsx] ([Home] and its
    handlers), [frontend/app/components/DetectionControls.tsx],
    [frontend/lib/api.ts] and [frontend/lib/mapbox.ts].

    - JavaScript numbers are modelled by [number]: an exact rational
      (no rounding, no overflow) or one of the IEEE special values
      [Infinity], [-Infinity], [NaN].  Signed zeros are not told apart.
    - JavaScript strings are sequences of UTF-16 code units.
    - The 2D canvas context is modelled by the log of the calls and
      property assignments made on it, in program order.
    - React state is an explicit record; every handler is a function on
      it and the rendered controls give the step relation. *)

From Stdlib Require Import QArith Qcanon Qround ZArith NArith List Bool Lia.
From Stdlib Require Import Lqa.
From Stdlib Require Import String Ascii.
Import ListNotations.

Set Implicit Arguments.
Open Scope nat_scope.

(* ===================================================================== *)
(** * JavaScript values *)
(* ===================================================================== *)

Module Js.

(** ** Numbers *)

Inductive number : Type :=
| Fin (q : Qc)
| Inf (negative : bool)
| NaN.

Definition isFinite (a : number) : bool :=
  match a with Fin _ => true | _ => false end.

Definition ofZ (z : Z) : number := Fin (Q2Qc (inject_Z z)).
Definition ofN (n : N) : number := ofZ (Z.of_N n).
Definition ofNat (n : nat) : number := ofZ (Z.of_nat n).

Definition neg (a : number) : number :=
  match a with
  | Fin q => Fin (- q)%Qc
  | Inf s => Inf (negb s)
  | NaN => NaN
  end.

Definition add (a b : number) : number :=
  match a, b with
  | NaN, _ | _, NaN => NaN
  | Fin p, Fin q => Fin (p + q)%Qc
  | Inf s, Inf t => if Bool.eqb s t then Inf s else NaN
  | Inf s, Fin _ | Fin _, Inf s => Inf s
  end.

Definition sub (a b : number) : number := add a (neg b).

Definition mul (a b : number) : number :=
  match a, b with
  | NaN, _ | _, NaN => NaN
  | Fin p, Fin q => Fin (p * q)%Qc
  | Inf s, Inf t => Inf (xorb s t)
  | Inf s, Fin q | Fin q, Inf s =>
      match (q ?= 0)%Qc with
      | Eq => NaN
      | Lt => Inf (negb s)
      | Gt => Inf s
      end
  end.

(** Division never raises: a zero divisor gives [NaN] for [0 / 0] and an
    infinity of the sign of the dividend otherwise. *)
Definition div (a b : number) : number :=
  match a, b with
  | NaN, _ | _, NaN => NaN
  | Fin p, Fin q =>
      if Qc_eq_bool q 0 then
        match (p ?= 0)%Qc with
        | Eq => NaN
        | Lt => Inf true
        | Gt => Inf false
        end
      else Fin (p / q)%Qc
  | Fin _, Inf _ => Fin 0%Qc
  | Inf s, Fin q =>
      match (q ?= 0)%Qc with
      | Lt => Inf (negb s)
      | _ => Inf s
      end
  | Inf _, Inf _ => NaN
  end.

(** [a === 0] on numbers. *)
Definition isZero (a : number) : bool :=
  match a with Fin q => Qc_eq_bool q 0 | _ => false end.

(** ** Strings *)

Definition jsstring : Type := list N.

Definition lit (s : string) : jsstring :=
  map N_of_ascii (list_ascii_of_string s).

Fixpoint str_eqb (s t : jsstring) : bool :=
  match s, t with
  | [], [] => true
  | c :: s', d :: t' => N.eqb c d && str_eqb s' t'
  | _, _ => false
  end.

(** White space and line terminators of ECMAScript, the code units
    [String.prototype.trim] strips. *)
Definition isWhiteSpace (c : N) : bool :=
  (N.eqb c 9 || N.eqb c 10 || N.eqb c 11 || N.eqb c 12 || N.eqb c 13
   || N.eqb c 32 || N.eqb c 160 || N.eqb c 5760
   || (N.leb 8192 c && N.leb c 8202)
   || N.eqb c 8232 || N.eqb c 8233 || N.eqb c 8239 || N.eqb c 8287
   || N.eqb c 12288 || N.eqb c 65279)%bool.

Fixpoint trimStart (s : jsstring) : jsstring :=
  match s with
  | [] => []
  | c :: s' => if isWhiteSpace c then trimStart s' else s
  end.

Definition trimEnd (s : jsstring) : jsstring := rev (trimStart (rev s)).

Definition trim (s : jsstring) : jsstring := trimEnd (trimStart s).

(** Truthiness of a string: the empty string is the only falsy one. *)
Definition truthy (s : jsstring) : bool :=
  match s with [] => false | _ :: _ => true end.

(** ** Completions *)

(** [TypeError] is what reading a property of [undefined] raises.
    [DegenerateBoundsError] is the error name of the specification's
    taxonomy; no code path of the frontend raises it. *)
Inductive Exception : Type :=
| TypeError
| DegenerateBoundsError.

Inductive completion (A : Type) : Type :=
| Normal (a : A)
| Throw (e : Exception).

Arguments Throw {A} e.

End Js.

Import Js.

Declare Scope num_scope.
Delimit Scope num_scope with num.
Bind Scope num_scope with number.
Infix "+" := add : num_scope.
Infix "-" := sub : num_scope.
Infix "*" := mul : num_scope.
Infix "/" := div : num_scope.

(* ===================================================================== *)
(** * lib/mapbox.ts and the coordinate converter *)
(* ===================================================================== *)

Record MapBounds : Type := {
  north : number;
  south : number;
  east : number;
  west : number
}.

Record Point : Type := { x : number; y : number }.

(** The helper of [handleSaveImage]; [previewBounds] and the canvas
    size are the variables its closure captures. *)
Definition geoToPixel (previewBounds : MapBounds) (width height : number)
    (lng lat : number) : Point :=
  {| x := ((lng - west previewBounds)
           / (east previewBounds - west previewBounds)) * width;
     y := ((north previewBounds - lat)
           / (north previewBounds - south previewBounds)) * height |}%num.

(** Modelled from the spec: the degeneracy test of the bounding-box
    converter of section 4.1 (zero geographic width or height), whose
    code, the backend's [coordinate_converter], is not among the
    sources. *)
Definition degenerate (bbox : MapBounds) : bool :=
  isZero (east bbox - west bbox)%num || isZero (north bbox - south bbox)%num.

(** Modelled from the spec: [pixelToGeo(x, y, bbox, width, height)] of
    section 4.1, whose code, the backend's [coordinate_converter], is
    not among the sources.  It fails with [DegenerateBoundsError] on a
    degenerate bounding box and otherwise returns
    [lng = west + (x / width) * (east - west)] and
    [lat = north - (y / height) * (north - south)]. *)
Definition pixelToGeo (px py : number) (bbox : MapBounds)
    (width height : number) : completion (number * number) :=
  if degenerate bbox then Throw DegenerateBoundsError
  else Normal (west bbox + (px / width) * (east bbox - west bbox),
               north bbox - (py / height) * (north bbox - south bbox))%num.

(** [lib/mapbox.ts] exports a [pixelToGeo] and a [geoToPixel] of its
    own, which hand the point to the map SDK ([map.unproject],
    [map.project]); the SDK's map handle is a parameter here. *)
Section MapboxSdk.
Variable Map : Type.
Variable unproject : Map -> Point -> number * number.
Variable project : Map -> number * number -> Point.

Definition sdk_pixelToGeo (pixelX pixelY : number) (map : Map)
    : number * number :=
  let point := {| x := pixelX; y := pixelY |} in
  let lngLat := unproject map point in
  (fst lngLat, snd lngLat).

Definition sdk_geoToPixel (lng lat : number) (map : Map)
    : number * number :=
  let point := project map (lng, lat) in
  (x point, y point).
End MapboxSdk.

Definition bounds_of (n s e w : Qc) : MapBounds :=
  {| north := Fin n; south := Fin s; east := Fin e; west := Fin w |}.

(* ===================================================================== *)
(** * lib/api.ts *)
(* ===================================================================== *)

Module Api.

Record Prompt : Type := { text : jsstring; color : jsstring }.

Record DetectionRequest : Type := {
  image : jsstring;
  prompts : list Prompt;
  bounds : MapBounds;
  zoom : number;
  confidence : number
}.

(** A position is the array [[lng, lat, ...]]. *)
Definition Position : Type := list number.
Definition Ring : Type := list Position.

(** The interface only declares ['Polygon']; [handleSaveImage] also
    looks for ['MultiPolygon'], and any other type draws nothing. *)
Inductive Geometry : Type :=
| Polygon (coordinates : list Ring)
| MultiPolygon (coordinates : list (list Ring))
| OtherGeometry.

Record Properties : Type := {
  prompt : jsstring;
  score : number;
  pcolor : option jsstring
}.

Record GeoJSONFeature : Type := {
  geometry : Geometry;
  properties : option Properties
}.

Record GeoJSONResponse : Type := { features : list GeoJSONFeature }.

(** [detectObjects] builds the request from its arguments and posts it;
    the request is what the service receives. *)
Definition detectObjects (image : jsstring) (prompts : list Prompt)
    (bounds : MapBounds) (zoom confidence : number) : DetectionRequest :=
  {| image := image; prompts := prompts; bounds := bounds;
     zoom := zoom; confidence := confidence |}.

End Api.

(* ===================================================================== *)
(** * components/PromptInput.tsx *)
(* ===================================================================== *)

Module PromptInput.

(** Prompt ids are ['1'], ['2'] and [Date.now().toString()]: decimal
    numerals, compared for equality only, kept as the number they
    denote. *)
Record Prompt : Type := { id : N; text : jsstring; color : jsstring }.

Definition DEFAULT_COLORS : list jsstring :=
  [lit "#FF69B4"; lit "#00FF00"; lit "#FF0000"; lit "#0000FF";
   lit "#FFFF00"; lit "#FF00FF"].

Definition addPrompt (now : N) (prompts : list Prompt) : list Prompt :=
  let newPrompt :=
    {| id := now; text := [];
       color := nth (List.length prompts mod List.length DEFAULT_COLORS)
                    DEFAULT_COLORS [] |} in
  prompts ++ [newPrompt].

Definition removePrompt (i : N) (prompts : list Prompt) : list Prompt :=
  filter (fun p => negb (N.eqb (id p) i)) prompts.

(** [updates] is the [Partial<Prompt>] the inputs pass: a new text or a
    new colour. *)
Inductive PromptUpdate : Type :=
| SetText (v : jsstring)
| SetColor (v : jsstring).

Definition updatePrompt (i : N) (updates : PromptUpdate)
    (prompts : list Prompt) : list Prompt :=
  map (fun p =>
         if N.eqb (id p) i then
           match updates with
           | SetText v => {| id := id p; text := v; color := color p |}
           | SetColor v => {| id := id p; text := text p; color := v |}
           end
         else p) prompts.

End PromptInput.

(* ===================================================================== *)
(** * The 2D canvas context *)
(* ===================================================================== *)

(** One constructor per method called or property assigned on [ctx]. *)
Inductive CanvasOp : Type :=
| drawImage (src : jsstring) (dx dy : number)
| set_fillStyle (v : jsstring)
| set_strokeStyle (v : jsstring)
| set_lineWidth (v : number)
| set_font (v : jsstring)
| beginPath
| moveTo (px py : number)
| lineTo (px py : number)
| closePath
| fill
| stroke
| fillRect (rx ry rw rh : number)
| strokeRect (rx ry rw rh : number)
| fillText (t : jsstring) (tx ty : number).

(** Code running against the context: it reads and extends the log of
    calls, and may throw. *)
Definition Ctx (A : Type) : Type :=
  list CanvasOp -> completion (A * list CanvasOp).

Definition ret {A} (a : A) : Ctx A := fun log => Normal (a, log).

Definition bind {A B} (m : Ctx A) (k : A -> Ctx B) : Ctx B :=
  fun log =>
    match m log with
    | Normal (a, log') => k a log'
    | Throw e => Throw e
    end.

Definition throw {A} (e : Exception) : Ctx A := fun _ => Throw e.

Definition call (op : CanvasOp) : Ctx unit :=
  fun log => Normal (tt, log ++ [op]).

Notation "m1 ;; m2" := (bind m1 (fun _ => m2))
  (at level 61, right associativity).
Notation "v <- m1 ;; m2" := (bind m1 (fun v => m2))
  (at level 61, m1 at next level, right associativity).

(** [xs.forEach((x, i) => body)] and [for (const x of xs) body]. *)
Fixpoint forEach_from {A} (body : A -> nat -> Ctx unit) (xs : list A)
    (i : nat) : Ctx unit :=
  match xs with
  | [] => ret tt
  | a :: xs' => body a i ;; forEach_from body xs' (S i)
  end.

Definition forEach {A} (xs : list A) (body : A -> nat -> Ctx unit)
    : Ctx unit :=
  forEach_from body xs 0.

Fixpoint for_of {A} (xs : list A) (body : A -> Ctx unit) : Ctx unit :=
  match xs with
  | [] => ret tt
  | a :: xs' => body a ;; for_of xs' body
  end.

(** [a[i]] on an array of numbers used in arithmetic: a missing element
    is [undefined], which arithmetic turns into [NaN]. *)
Definition item (coord : Api.Position) (i : nat) : number :=
  nth i coord NaN.

(** [rings[0].forEach]: reading [forEach] of [undefined] throws. *)
Definition outerRing (rings : list Api.Ring) : Ctx Api.Ring :=
  match rings with
  | [] => throw TypeError
  | r :: _ => ret r
  end.

(* ===================================================================== *)
(** * app/page.tsx: compositing in [handleSaveImage] *)
(* ===================================================================== *)

(** [coords.forEach((coord, i) => ...)]: the ring's vertices, converted
    and appended to the current path. *)
Definition ringPath (toPixel : number -> number -> Point)
    (coords : Api.Ring) : Ctx unit :=
  forEach coords (fun coord i =>
    let p := toPixel (item coord 0) (item coord 1) in
    if Nat.eqb i 0 then call (moveTo (x p) (y p))
    else call (lineTo (x p) (y p))).

(** The block the ['Polygon'] branch runs once and the ['MultiPolygon']
    branch runs for every member. *)
Definition drawPolygon (toPixel : number -> number -> Point)
    (rings : list Api.Ring) : Ctx unit :=
  call beginPath ;;
  coords <- outerRing rings ;;
  ringPath toPixel coords ;;
  call closePath ;;
  call fill ;;
  call stroke.

(** [feature.properties?.color || '#FF0000'] *)
Definition featureColor (feature : Api.GeoJSONFeature) : jsstring :=
  match Api.properties feature with
  | Some props =>
      match Api.pcolor props with
      | Some c => if truthy c then c else lit "#FF0000"
      | None => lit "#FF0000"
      end
  | None => lit "#FF0000"
  end.

Definition drawFeature (toPixel : number -> number -> Point)
    (feature : Api.GeoJSONFeature) : Ctx unit :=
  let color := featureColor feature in
  call (set_fillStyle (color ++ lit "66")) ;;
  call (set_strokeStyle color) ;;
  call (set_lineWidth (ofZ 2)) ;;
  match Api.geometry feature with
  | Api.Polygon coordinates => drawPolygon toPixel coordinates
  | Api.MultiPolygon coordinates =>
      for_of coordinates (fun polygon => drawPolygon toPixel polygon)
  | Api.OtherGeometry => ret tt
  end.

Definition drawLegend (prompts : list PromptInput.Prompt) : Ctx unit :=
  let legendY := ofZ 20 in
  let legendX := ofZ 10 in
  call (set_font (lit "14px sans-serif")) ;;
  call (set_fillStyle (lit "rgba(0, 0, 0, 0.7)")) ;;
  call (fillRect (legendX - ofZ 5) (legendY - ofZ 15) (ofZ 150)
          (ofZ 25 * ofNat (List.length prompts) + ofZ 10))%num ;;
  forEach prompts (fun prompt i =>
    let y := (legendY + ofNat i * ofZ 25)%num in
    call (set_fillStyle (PromptInput.color prompt)) ;;
    call (fillRect legendX y (ofZ 20) (ofZ 15)) ;;
    call (set_strokeStyle (lit "#000")) ;;
    call (strokeRect legendX y (ofZ 20) (ofZ 15)) ;;
    call (set_fillStyle (lit "#fff")) ;;
    call (fillText (PromptInput.text prompt) (legendX + ofZ 28)
            (y + ofZ 12))%num).

(** Everything [handleSaveImage] draws once it holds a context: the
    base image, the features, the legend. *)
Definition composite (previewImage : jsstring) (previewBounds : MapBounds)
    (width height : N) (resultsToRender : Api.GeoJSONResponse)
    (prompts : list PromptInput.Prompt) : Ctx unit :=
  call (drawImage previewImage (ofZ 0) (ofZ 0)) ;;
  let toPixel := geoToPixel previewBounds (ofN width) (ofN height) in
  for_of (Api.features resultsToRender) (drawFeature toPixel) ;;
  drawLegend prompts.

(* ===================================================================== *)
(** * app/page.tsx: the state of [Home] *)
(* ===================================================================== *)

Module CapturedImage.

(** [id] and [timestamp] both come from the clock; [id] is its decimal
    numeral, kept as the number. *)
Record t : Type := {
  id : N;
  image : jsstring;
  timestamp : N;
  bounds : MapBounds;
  prompts : list jsstring;
  detectionCount : nat;
  results : option Api.GeoJSONResponse
}.

End CapturedImage.

(** One field per [useState]; [mapRef] is [mapRef.current !== null]. *)
Record State : Type := {
  mapRef : bool;
  prompts : list PromptInput.Prompt;
  confidence : number;
  isLoading : bool;
  detectionResults : option Api.GeoJSONResponse;
  error : option jsstring;
  zoom : number;
  previewImage : option jsstring;
  previewBounds : option MapBounds;
  showPreview : bool;
  capturedImages : list CapturedImage.t
}.

Definition setMap (v : bool) (s : State) : State :=
  {| mapRef := v; prompts := prompts s; confidence := confidence s;
     isLoading := isLoading s; detectionResults := detectionResults s;
     error := error s; zoom := zoom s; previewImage := previewImage s;
     previewBounds := previewBounds s; showPreview := showPreview s;
     capturedImages := capturedImages s |}.

Definition setPrompts (v : list PromptInput.Prompt) (s : State) : State :=
  {| mapRef := mapRef s; prompts := v; confidence := confidence s;
     isLoading := isLoading s; detectionResults := detectionResults s;
     error := error s; zoom := zoom s; previewImage := previewImage s;
     previewBounds := previewBounds s; showPreview := showPreview s;
     capturedImages := capturedImages s |}.

Definition setConfidence (v : number) (s : State) : State :=
  {| mapRef := mapRef s; prompts := prompts s; confidence := v;
     isLoading := isLoading s; detectionResults := detectionResults s;
     error := error s; zoom := zoom s; previewImage := previewImage s;
     previewBounds := previewBounds s; showPreview := showPreview s;
     capturedImages := capturedImages s |}.

Definition setIsLoading (v : bool) (s : State) : State :=
  {| mapRef := mapRef s; prompts := prompts s; confidence := confidence s;
     isLoading := v; detectionResults := detectionResults s;
     error := error s; zoom := zoom s; previewImage := previewImage s;
     previewBounds := previewBounds s; showPreview := showPreview s;
     capturedImages := capturedImages s |}.

Definition setDetectionResults (v : option Api.GeoJSONResponse) (s : State)
    : State :=
  {| mapRef := mapRef s; prompts := prompts s; confidence := confidence s;
     isLoading := isLoading s; detectionResults := v;
     error := error s; zoom := zoom s; previewImage := previewImage s;
     previewBounds := previewBounds s; showPreview := showPreview s;
     capturedImages := capturedImages s |}.

Definition setError (v : option jsstring) (s : State) : State :=
  {| mapRef := mapRef s; prompts := prompts s; confidence := confidence s;
     isLoading := isLoading s; detectionResults := detectionResults s;
     error := v; zoom := zoom s; previewImage := previewImage s;
     previewBounds := previewBounds s; showPreview := showPreview s;
     capturedImages := capturedImages s |}.

Definition setZoom (v : number) (s : State) : State :=
  {| mapRef := mapRef s; prompts := prompts s; confidence := confidence s;
     isLoading := isLoading s; detectionResults := detectionResults s;
     error := error s; zoom := v; previewImage := previewImage s;
     previewBounds := previewBounds s; showPreview := showPreview s;
     capturedImages := capturedImages s |}.

Definition setPreviewImage (v : option jsstring) (s : State) : State :=
  {| mapRef := mapRef s; prompts := prompts s; confidence := confidence s;
     isLoading := isLoading s; detectionResults := detectionResults s;
     error := error s; zoom := zoom s; previewImage := v;
     previewBounds := previewBounds s; showPreview := showPreview s;
     capturedImages := capturedImages s |}.

Definition setPreviewBounds (v : option MapBounds) (s : State) : State :=
  {| mapRef := mapRef s; prompts := prompts s; confidence := confidence s;
     isLoading := isLoading s; detectionResults := detectionResults s;
     error := error s; zoom := zoom s; previewImage := previewImage s;
     previewBounds := v; showPreview := showPreview s;
     capturedImages := capturedImages s |}.

Definition setShowPreview (v : bool) (s : State) : State :=
  {| mapRef := mapRef s; prompts := prompts s; confidence := confidence s;
     isLoading := isLoading s; detectionResults := detectionResults s;
     error := error s; zoom := zoom s; previewImage := previewImage s;
     previewBounds := previewBounds s; showPreview := v;
     capturedImages := capturedImages s |}.

(** The functional form [setCapturedImages(prev => ...)]. *)
Definition setCapturedImages
    (f : list CapturedImage.t -> list CapturedImage.t) (s : State) : State :=
  {| mapRef := mapRef s; prompts := prompts s; confidence := confidence s;
     isLoading := isLoading s; detectionResults := detectionResults s;
     error := error s; zoom := zoom s; previewImage := previewImage s;
     previewBounds := previewBounds s; showPreview := showPreview s;
     capturedImages := f (capturedImages s) |}.

Definition initialState : State :=
  {| mapRef := false;
     prompts :=
       [ {| PromptInput.id := 1; PromptInput.text := lit "trees";
            PromptInput.color := lit "#00FF00" |};
         {| PromptInput.id := 2; PromptInput.text := lit "buildings";
            PromptInput.color := lit "#FF69B4" |} ];
     confidence := Fin (Q2Qc (1 # 2));
     isLoading := false;
     detectionResults := None;
     error := None;
     zoom := ofZ 17;
     previewImage := None;
     previewBounds := None;
     showPreview := false;
     capturedImages := [] |}.

(** Truthiness of [string | null]. *)
Definition truthyOpt (v : option jsstring) : bool :=
  match v with Some s => truthy s | None => false end.

(** ** The detection request and its continuation *)

(** [prompts.filter((p) => p.text.trim()).map((p) => ({ text, color }))] *)
Definition apiPrompts (prompts : list PromptInput.Prompt) : list Api.Prompt :=
  map (fun p => {| Api.text := PromptInput.text p;
                   Api.color := PromptInput.color p |})
      (filter (fun p => truthy (trim (PromptInput.text p))) prompts).

Inductive Origin : Type := FromConfirm | FromCapture.

(** A request awaiting its response, with the variables the code after
    the [await] still reads from its closure. *)
Record Pending : Type := {
  request : Api.DetectionRequest;
  origin : Origin;
  closure_prompts : list PromptInput.Prompt
}.

(** What the rejection handler reads:
    [err.response?.data?.detail] and [err.message]. *)
Record RequestError : Type := {
  detail : option jsstring;
  message : option jsstring
}.

Definition orElse (a : option jsstring) (b : jsstring) : jsstring :=
  match a with
  | Some s => if truthy s then s else b
  | None => b
  end.

(** [err.response?.data?.detail || err.message || 'Detection failed'] *)
Definition errorText (err : RequestError) : jsstring :=
  orElse (detail err) (orElse (message err) (lit "Detection failed")).

Inductive Settled : Type :=
| Fulfilled (results : option Api.GeoJSONResponse)
| Rejected (err : RequestError).

(** ** Handlers *)

Definition handleMapReady (s : State) : State := setMap true s.

(** [handleImageCapture], up to its [await]: the state it leaves and the
    request it sends, if any. *)
Definition handleImageCapture (image : jsstring) (bounds : MapBounds)
    (s : State) : State * option Pending :=
  if negb (mapRef s)
     || Nat.eqb (List.length (prompts s)) 0
     || existsb (fun p => negb (truthy (trim (PromptInput.text p))))
                (prompts s)
  then (setError (Some (lit "Please add at least one prompt with text.")) s,
        None)
  else
    (setError None (setIsLoading true s),
     Some {| request := Api.detectObjects image (apiPrompts (prompts s))
                          bounds (zoom s) (confidence s);
             origin := FromCapture;
             closure_prompts := prompts s |}).

(** What [getMapBounds] and [canvas.toDataURL] give [handleDetect], or
    the message of the exception they raise. *)
Inductive CaptureResult : Type :=
| Captured (image : jsstring) (bounds : MapBounds)
| CaptureFailed (message : option jsstring).

Definition handleDetect (r : CaptureResult) (s : State) : State :=
  if negb (mapRef s) then s
  else
    match r with
    | Captured image bounds =>
        setShowPreview true
          (setPreviewBounds (Some bounds) (setPreviewImage (Some image) s))
    | CaptureFailed msg =>
        setError (Some (lit "Failed to capture map image: "
                        ++ orElse msg (lit "Unknown error"))) s
    end.

(** [handleConfirmDetection], up to its [await]. *)
Definition handleConfirmDetection (s : State) : State * option Pending :=
  match previewImage s, previewBounds s with
  | Some image, Some bounds =>
      if truthy image then
        (setError None (setIsLoading true (setShowPreview false s)),
         Some {| request := Api.detectObjects image (apiPrompts (prompts s))
                              bounds (zoom s) (confidence s);
                 origin := FromConfirm;
                 closure_prompts := prompts s |})
      else (s, None)
  | _, _ => (s, None)
  end.

(** [results?.features.length || 0] *)
Definition featureCount (results : option Api.GeoJSONResponse) : nat :=
  match results with
  | Some r => List.length (Api.features r)
  | None => 0
  end.

Definition newCapture (p : Pending) (now : N)
    (results : option Api.GeoJSONResponse) : CapturedImage.t :=
  {| CapturedImage.id := now;
     CapturedImage.image := Api.image (request p);
     CapturedImage.timestamp := now;
     CapturedImage.bounds := Api.bounds (request p);
     CapturedImage.prompts := map PromptInput.text (closure_prompts p);
     CapturedImage.detectionCount := featureCount results;
     CapturedImage.results := results |}.

(** The rest of the handler that sent [p], run when the request settles:
    the [try] body after the [await], or [catch], then [finally]. *)
Definition resume (p : Pending) (now : N) (r : Settled) (s : State) : State :=
  match r with
  | Fulfilled results =>
      match origin p with
      | FromConfirm =>
          setIsLoading false
            (setCapturedImages
               (fun prev => firstn 10 (newCapture p now results :: prev))
               (setDetectionResults results s))
      | FromCapture =>
          setIsLoading false (setDetectionResults results s)
      end
  | Rejected err =>
      setIsLoading false (setError (Some (errorText err)) s)
  end.

Definition handleCancelPreview (s : State) : State :=
  setPreviewBounds None (setPreviewImage None (setShowPreview false s)).

Definition handleClearResults (s : State) : State :=
  setDetectionResults None s.

(** [onClick] of an entry of the capture history. *)
Definition selectCapture (capture : CapturedImage.t) (s : State) : State :=
  let s1 :=
    match CapturedImage.results capture with
    | Some r => setDetectionResults (Some r) s
    | None => s
    end in
  setShowPreview true
    (setPreviewBounds (Some (CapturedImage.bounds capture))
       (setPreviewImage (Some (CapturedImage.image capture)) s1)).

(** ** [handleSaveImage] *)

Inductive SaveOutcome : Type :=
| NoDownload
| ImageNeverLoads
| PlainDownload (href : jsstring)
| CompositeDownload (width height : N) (canvas : list CanvasOp).

(** [decode] gives the size of the image a data URL loads to, if it
    loads; [hasContext] tells whether [getContext('2d')] succeeds. *)
Definition handleSaveImage (decode : jsstring -> option (N * N))
    (hasContext : bool) (s : State) : completion SaveOutcome :=
  match previewImage s with
  | None => Normal NoDownload
  | Some image =>
      if negb (truthy image) then Normal NoDownload
      else
        let capture :=
          find (fun c => str_eqb (CapturedImage.image c) image)
               (capturedImages s) in
        let resultsToRender :=
          match capture with
          | Some c =>
              match CapturedImage.results c with
              | Some r => Some r
              | None => detectionResults s
              end
          | None => detectionResults s
          end in
        match resultsToRender, previewBounds s with
        | Some results, Some bounds =>
            match decode image with
            | None => Normal ImageNeverLoads
            | Some (width, height) =>
                if negb hasContext then Normal NoDownload
                else
                  match composite image bounds width height results
                          (prompts s) [] with
                  | Normal (_, canvas) =>
                      Normal (CompositeDownload width height canvas)
                  | Throw e => Throw e
                  end
            end
        | _, _ => Normal (PlainDownload image)
        end
  end.

(* ===================================================================== *)
(** * The application as a transition system *)
(* ===================================================================== *)

(** The React state together with the requests in flight.  A handler
    runs from the event to its [await] (or to its end) without
    interleaving, and the page is rendered again before the next event:
    every event is one step. *)
Record World : Type := {
  ui : State;
  inflight : list Pending
}.

Definition initialWorld : World := {| ui := initialState; inflight := [] |}.

(** What the user and the environment can do.  [window.__mapCapture],
    through which [MapView] offers [handleImageCapture], is called by no
    component and is not among them. *)
Inductive Event : Type :=
| MapLoaded
| Zoomed (z : number)
| ClickDetect (r : CaptureResult)
| ClickRunDetection
| ClickSaveImage
| ClickCancelPreview
| ClickCapture (i : nat)
| ClickClearResults
| SlideConfidence (v : number)
| ClickAddPrompt (now : N)
| ClickRemovePrompt (i : N)
| EditPrompt (i : N) (u : PromptInput.PromptUpdate)
| Settle (i : nat) (now : N) (r : Settled).

(** [showPreview && previewImage]: the modal and its buttons exist. *)
Definition modalShown (s : State) : bool :=
  showPreview s && truthyOpt (previewImage s).

(** Whether the control exists in the rendered page and is not
    [disabled]; a response needs its request. *)
Definition enabled (w : World) (e : Event) : bool :=
  let s := ui w in
  match e with
  | MapLoaded => true
  | Zoomed _ => mapRef s
  | ClickDetect _ => negb (isLoading s)
  | ClickRunDetection => modalShown s && negb (isLoading s)
  | ClickSaveImage => modalShown s
  | ClickCancelPreview => modalShown s
  | ClickCapture i =>
      match nth_error (capturedImages s) i with
      | Some _ => true
      | None => false
      end
  | ClickClearResults =>
      negb (Nat.eqb (featureCount (detectionResults s)) 0)
  | SlideConfidence _ => negb (isLoading s)
  | ClickAddPrompt _ | ClickRemovePrompt _ | EditPrompt _ _ => true
  | Settle i _ _ =>
      match nth_error (inflight w) i with
      | Some _ => true
      | None => false
      end
  end.

Fixpoint removeAt {A} (i : nat) (l : list A) : list A :=
  match l, i with
  | [], _ => []
  | _ :: l', O => l'
  | a :: l', S i' => a :: removeAt i' l'
  end.

Definition react (w : World) (e : Event) : World :=
  let s := ui w in
  match e with
  | MapLoaded => {| ui := handleMapReady s; inflight := inflight w |}
  | Zoomed z => {| ui := setZoom z s; inflight := inflight w |}
  | ClickDetect r => {| ui := handleDetect r s; inflight := inflight w |}
  | ClickRunDetection =>
      let (s', sent) := handleConfirmDetection s in
      {| ui := s';
         inflight := match sent with
                     | Some p => inflight w ++ [p]
                     | None => inflight w
                     end |}
  | ClickSaveImage => w
  | ClickCancelPreview =>
      {| ui := handleCancelPreview s; inflight := inflight w |}
  | ClickCapture i =>
      match nth_error (capturedImages s) i with
      | Some c => {| ui := selectCapture c s; inflight := inflight w |}
      | None => w
      end
  | ClickClearResults =>
      {| ui := handleClearResults s; inflight := inflight w |}
  | SlideConfidence v =>
      {| ui := setConfidence v s; inflight := inflight w |}
  | ClickAddPrompt now =>
      {| ui := setPrompts (PromptInput.addPrompt now (prompts s)) s;
         inflight := inflight w |}
  | ClickRemovePrompt i =>
      {| ui := setPrompts (PromptInput.removePrompt i (prompts s)) s;
         inflight := inflight w |}
  | EditPrompt i u =>
      {| ui := setPrompts (PromptInput.updatePrompt i u (prompts s)) s;
         inflight := inflight w |}
  | Settle i now r =>
      match nth_error (inflight w) i with
      | Some p => {| ui := resume p now r s;
                     inflight := removeAt i (inflight w) |}
      | None => w
      end
  end.

Inductive step : World -> Event -> World -> Prop :=
| step_event : forall w e, enabled w e = true -> step w e (react w e).

Inductive reachable : World -> Prop :=
| reach_init : reachable initialWorld
| reach_step : forall w e w', reachable w -> step w e w' -> reachable w'.

(** A user action that sends a detection request from [w]. *)
Definition initiates (w : World) (e : Event) : Prop :=
  enabled w e = true /\
  List.length (inflight (react w e)) > List.length (inflight w).

(* ===================================================================== *)
(** * components/DetectionControls.tsx *)
(* ===================================================================== *)




Module DetectionControls.

Record Props : Type := {
  confidence : number;
  isLoading : bool;
  detectionCount : nat;
  zoom : number
}.



End DetectionControls.

(** The props [Home] passes to [DetectionControls]. *)
Definition controlsProps (s : State) : DetectionControls.Props :=
  {| DetectionControls.confidence := confidence s;
     DetectionControls.isLoading := isLoading s;
     DetectionControls.detectionCount := featureCount (detectionResults s);
     DetectionControls.zoom := zoom s |}.

(* ===================================================================== *)
(** * components/MapView.tsx *)
(* ===================================================================== *)

Module MapView.

(** [s.startsWith(prefix)] and [s.includes(sub)], on code units. *)
Fixpoint startsWith (s prefix : jsstring) : bool :=
  match prefix, s with
  | [], _ => true
  | _ :: _, [] => false
  | d :: prefix', c :: s' => N.eqb c d && startsWith s' prefix'
  end.

Fixpoint includes (s sub : jsstring) : bool :=
  match s with
  | [] => startsWith [] sub
  | _ :: s' => startsWith s sub || includes s' sub
  end.

(** One field per [useRef]/[useState]; [map] is [map.current !== null]. *)
Record State : Type := {
  map : bool;
  mapLoaded : bool;
  mapError : option jsstring
}.

Definition initial : State :=
  {| map := false; mapLoaded := false; mapError := None |}.

(** The mount effect, given the container and
    [process.env.NEXT_PUBLIC_MAPBOX_TOKEN]. *)
Definition mount (container : bool) (mapboxToken : option jsstring)
    (st : State) : State :=
  if negb container || map st then st
  else if negb (truthyOpt mapboxToken)
          || match mapboxToken with
             | Some t => str_eqb t (lit "your_mapbox_token_here")
             | None => false
             end
  then {| map := map st; mapLoaded := mapLoaded st;
          mapError :=
            Some (lit "Mapbox token not found. Set NEXT_PUBLIC_MAPBOX_TOKEN in .env.local") |}
  else {| map := true; mapLoaded := mapLoaded st; mapError := None |}.

(** The ['load'] listener; it exists once the map does. *)
Definition onLoad (st : State) : State :=
  if map st then {| map := map st; mapLoaded := true; mapError := mapError st |}
  else st.

(** [e.error] of an ['error'] event: its [message], and what
    [JSON.stringify] makes of it. *)
Record ErrorObject : Type := {
  message : option jsstring;
  json : jsstring
}.

(** The text the ['error'] listener passes to [setMapError], if it
    calls it. *)
Definition errorText (error : option ErrorObject) : option jsstring :=
  match error with
  | None => None
  | Some err =>
      if truthyOpt (message err) then
        let errorMsg := match message err with Some m => m | None => [] end in
        if includes errorMsg (lit "token")
           || includes errorMsg (lit "unauthorized")
           || includes errorMsg (lit "401")
        then Some (lit "Invalid Mapbox token. Please check your token in .env.local")
        else if includes errorMsg (lit "style")
                || includes errorMsg (lit "403")
        then Some (lit "Mapbox token does not have access to this style. Try a different token or style.")
        else Some (lit "Mapbox error: " ++ errorMsg)
      else Some (lit "Mapbox error: " ++ json err)
  end.

Definition onError (error : option ErrorObject) (st : State) : State :=
  if map st then
    match errorText error with
    | Some msg => {| map := map st; mapLoaded := mapLoaded st;
                     mapError := Some msg |}
    | None => st
    end
  else st.

End MapView.

(** [handleCapture] of [MapView], with [handleImageCapture] as its
    [onImageCapture]: what [window.__mapCapture] would run.  A failed
    capture is logged and changes nothing. *)
Definition handleCapture (mv : MapView.State) (r : CaptureResult) (s : State)
    : State * option Pending :=
  if negb (MapView.map mv) || negb (MapView.mapLoaded mv) then (s, None)
  else
    match r with
    | Captured image bounds => handleImageCapture image bounds s
    | CaptureFailed _ => (s, None)
    end.

(* ===================================================================== *)
(** * Reading a canvas log *)
(* ===================================================================== *)

(** Calls that build or paint the current path. *)
Definition isPathOp (op : CanvasOp) : bool :=
  match op with
  | beginPath | moveTo _ _ | lineTo _ _ | closePath | fill | stroke => true
  | _ => false
  end.

(** The filled rectangles and the texts of a log, each with the fill
    style last assigned before it and its vertical position. *)
Inductive Painted : Type :=
| Rect (style : jsstring) (ry : number)
| Text (style : jsstring) (t : jsstring) (ty : number).

Fixpoint painted (style : jsstring) (ops : list CanvasOp) : list Painted :=
  match ops with
  | [] => []
  | set_fillStyle v :: ops' => painted v ops'
  | fillRect _ ry _ _ :: ops' => Rect style ry :: painted style ops'
  | fillText t _ ty :: ops' => Text style t ty :: painted style ops'
  | _ :: ops' => painted style ops'
  end.

(** The log a run leaves on a fresh canvas ([[]] if it throws). *)
Definition logOf (m : Ctx unit) : list CanvasOp :=
  match m [] with
  | Normal (_, canvas) => canvas
  | Throw _ => []
  end.

(** ** The drawing the specification describes *)

(** The path of one ring: a [moveTo] to its first vertex and a [lineTo]
    to each of the others, in order. *)
Definition ringVertices (toPixel : number -> number -> Point)
    (ring : Api.Ring) : list Point :=
  map (fun coord => toPixel (item coord 0) (item coord 1)) ring.

Definition pathOps (pts : list Point) : list CanvasOp :=
  match pts with
  | [] => []
  | p :: ps => moveTo (x p) (y p) :: map (fun q => lineTo (x q) (y q)) ps
  end.

(** One closed, filled and stroked path made of [outer] alone. *)
Definition polygonOps (toPixel : number -> number -> Point)
    (outer : Api.Ring) : list CanvasOp :=
  [beginPath] ++ pathOps (ringVertices toPixel outer)
  ++ [closePath; fill; stroke].

Definition styleOps (color : jsstring) : list CanvasOp :=
  [set_fillStyle (color ++ lit "66"); set_strokeStyle color;
   set_lineWidth (ofZ 2)].

(** Ring [0] of a list of rings, [[]] when there is none. *)
Definition ring0 (rings : list Api.Ring) : Api.Ring := hd [] rings.

Definition featureOps (toPixel : number -> number -> Point)
    (feature : Api.GeoJSONFeature) : list CanvasOp :=
  styleOps (featureColor feature)
  ++ match Api.geometry feature with
     | Api.Polygon rings => polygonOps toPixel (ring0 rings)
     | Api.MultiPolygon polygons =>
         List.concat (map (fun rings => polygonOps toPixel (ring0 rings))
                     polygons)
     | Api.OtherGeometry => []
     end.

(** Every polygon of the geometry has at least its outer ring. *)
Definition hasOuterRings (g : Api.Geometry) : bool :=
  match g with
  | Api.Polygon rings => negb (Nat.eqb (List.length rings) 0)
  | Api.MultiPolygon polygons =>
      forallb (fun rings => negb (Nat.eqb (List.length rings) 0)) polygons
  | Api.OtherGeometry => true
  end.

Definition wellFormed (results : Api.GeoJSONResponse) : bool :=
  forallb (fun f => hasOuterRings (Api.geometry f)) (Api.features results).

(** Row [i] of the legend and what it shows for [prompt]: the swatch in
    the prompt's colour, then its text in white. *)
Definition legendRow (i : nat) : number := (ofZ 20 + ofNat i * ofZ 25)%num.

Definition legendEntry (i : nat) (prompt : PromptInput.Prompt)
    : list Painted :=
  [Rect (PromptInput.color prompt) (legendRow i);
   Text (lit "#fff") (PromptInput.text prompt) (legendRow i + ofZ 12)%num].

Fixpoint legendEntries (i : nat) (prompts : list PromptInput.Prompt)
    : list Painted :=
  match prompts with
  | [] => []
  | p :: ps => legendEntry i p ++ legendEntries (S i) ps
  end.

(** Modelled from the spec: the digits of a hex colour string (section
    3); the sources hold no colour parser. *)
Definition isHexDigit (c : N) : bool :=
  (N.leb 48 c && N.leb c 57) || (N.leb 65 c && N.leb c 70)
  || (N.leb 97 c && N.leb c 102).

(** Modelled from the spec: section 3 gives a colour as a hex string;
    the sources hold no colour parser.  [isHexColor] accepts ['#'] and
    six hexadecimal digits, the form the prompt colours have. *)
Definition isHexColor (s : jsstring) : bool :=
  match s with
  | 35%N :: digits =>
      Nat.eqb (List.length digits) 6 && forallb isHexDigit digits
  | _ => false
  end.

(** ** Blank prompts, in the specification's words *)

(** A text is blank when it is made of white space only. *)
Definition blank (s : jsstring) : bool := forallb isWhiteSpace s.

(* ===================================================================== *)
(** * Notions used in the statements *)
(* ===================================================================== *)

(** [emits m a ops]: from any log, [m] returns [a] and appends [ops]. *)
Definition emits {A} (m : Ctx A) (a : A) (ops : list CanvasOp) : Prop :=
  forall log, m log = Normal (a, log ++ ops).

(** [only_TypeError m]: whatever [m] throws is a [TypeError]. *)
Definition only_TypeError {A} (m : Ctx A) : Prop :=
  forall log e, m log = Throw e -> e = TypeError.

(** [ops] paints no rectangle and no text. *)
Definition paintsNothing (ops : list CanvasOp) : Prop :=
  forall st rest, exists st', painted st (ops ++ rest) = painted st' rest.

Definition noPathOps (ops : list CanvasOp) : bool :=
  forallb (fun op => negb (isPathOp op)) ops.

(** The prompts the claim expects in a request. *)
Definition toApiPrompt (p : PromptInput.Prompt) : Api.Prompt :=
  {| Api.text := PromptInput.text p; Api.color := PromptInput.color p |}.

Definition nonBlankPrompts (prompts : list PromptInput.Prompt)
    : list Api.Prompt :=
  map toApiPrompt
      (filter (fun p => negb (blank (PromptInput.text p))) prompts).

(** Events that neither send a request nor receive a response. *)
Definition quiet (e : Event) : bool :=
  match e with
  | ClickRunDetection | Settle _ _ _ => false
  | _ => true
  end.

(** One request at most, and [isLoading] tells whether it is there. *)
Definition consistent (w : World) : Prop :=
  (inflight w = [] /\ isLoading (ui w) = false) \/
  (exists p, inflight w = [p] /\ isLoading (ui w) = true /\
             origin p = FromConfirm).

(** Running a list of events, each of which has to be enabled. *)
Fixpoint run (es : list Event) (w : World) : option World :=
  match es with
  | [] => Some w
  | e :: es' => if enabled w e then run es' (react w e) else None
  end.

(** The image and bounds pairs that the captures of a run produced. *)
Definition capturesOf (es : list Event) : list (jsstring * MapBounds) :=
  flat_map (fun e =>
              match e with
              | ClickDetect (Captured image bounds) => [(image, bounds)]
              | _ => []
              end) es.

(** [pairs] holds the image and bounds of the preview, of every request
    in flight and of every capture of the history. *)
Definition pairedWithin (pairs : list (jsstring * MapBounds)) (w : World)
    : Prop :=
  (forall c, In c (capturedImages (ui w)) ->
             In (CapturedImage.image c, CapturedImage.bounds c) pairs) /\
  (forall p, In p (inflight w) ->
             In (Api.image (request p), Api.bounds (request p)) pairs) /\
  (forall image bounds,
      previewImage (ui w) = Some image ->
      previewBounds (ui w) = Some bounds -> In (image, bounds) pairs) /\
  (previewImage (ui w) = None <-> previewBounds (ui w) = None).

(** The events of the prompt list. *)
Definition isPromptEvent (e : Event) : bool :=
  match e with
  | ClickAddPrompt _ | ClickRemovePrompt _ | EditPrompt _ _ => true
  | _ => false
  end.

(** [sub] occurs in [s]: [s] is [pre ++ sub ++ post]. *)
Definition occursIn (sub s : jsstring) : Prop :=
  exists pre post, s = pre ++ sub ++ post.

(* ===================================================================== *)
(** * Sample data *)
(* ===================================================================== *)

Definition sampleBounds : MapBounds :=
  bounds_of (Q2Qc (2943 # 100)) (Q2Qc (2942 # 100))
            (Q2Qc (- 9848 # 100)) (Q2Qc (- 9850 # 100)).

Definition sampleImage : jsstring := lit "data:image/png;base64,iVBORw0KGgo=".

(** A triangle over longitudes 4 to 6 and latitudes 0 to 1. *)
Definition triangle (color : option jsstring) : Api.GeoJSONFeature :=
  {| Api.geometry :=
       Api.Polygon [ [ [ofZ 5; ofZ 0]; [ofZ 6; ofZ 1]; [ofZ 4; ofZ 1] ] ];
     Api.properties :=
       Some {| Api.prompt := lit "trees"; Api.score := Fin (Q2Qc (1 # 2));
               Api.pcolor := color |} |}.

(** The page with the preview open on [sampleImage] and [features] as
    the current results. *)
Definition previewing (bounds : MapBounds)
    (features : list Api.GeoJSONFeature) : State :=
  setDetectionResults (Some {| Api.features := features |})
    (setShowPreview true
       (setPreviewBounds (Some bounds)
          (setPreviewImage (Some sampleImage) initialState))).

(** The user captures the view and confirms. *)
Definition askDetection : list Event :=
  [ClickDetect (Captured sampleImage sampleBounds); ClickRunDetection].

(** One full detection, answered at time [now] with one triangle. *)
Definition detection (now : N) : list Event :=
  askDetection
  ++ [Settle 0 now
        (Fulfilled (Some {| Api.features := [triangle None] |}))].

(** The map loads and a first request is in flight. *)
Definition detecting : World :=
  react (react (react initialWorld MapLoaded)
               (ClickDetect (Captured sampleImage sampleBounds)))
        ClickRunDetection.

(** Ten detections at times 1 to 10 have been answered and an eleventh
    request is in flight. *)
Definition tenCaptures : list Event :=
  MapLoaded :: flat_map detection [1; 2; 3; 4; 5; 6; 7; 8; 9; 10]%N
  ++ askDetection.

Definition fullAndDetecting : World :=
  match run tenCaptures initialWorld with
  | Some w => w
  | None => initialWorld
  end.

(* ===================================================================== *)
(** * Arithmetic of [number] on finite operands *)
(* ===================================================================== *)

Lemma Qc_eq_bool_refl : forall q : Qc, Qc_eq_bool q q = true.
Proof.
  intro q. unfold Qc_eq_bool. destruct (Qc_eq_dec q q) as [_ | H].
  - reflexivity.
  - now elim H.
Qed.

Lemma Qc_eq_bool_neq : forall p q : Qc, p <> q -> Qc_eq_bool p q = false.
Proof.
  intros p q H. unfold Qc_eq_bool. destruct (Qc_eq_dec p q) as [E | _].
  - now elim H.
  - reflexivity.
Qed.

Lemma sub_Fin : forall p q : Qc, (Fin p - Fin q)%num = Fin (p - q)%Qc.
Proof. reflexivity. Qed.

Lemma add_Fin : forall p q : Qc, (Fin p + Fin q)%num = Fin (p + q)%Qc.
Proof. reflexivity. Qed.

Lemma mul_Fin : forall p q : Qc, (Fin p * Fin q)%num = Fin (p * q)%Qc.
Proof. reflexivity. Qed.

Lemma div_Fin : forall p q : Qc,
  q <> 0%Qc -> (Fin p / Fin q)%num = Fin (p / q)%Qc.
Proof.
  intros p q H. unfold div. now rewrite (Qc_eq_bool_neq H).
Qed.

(** Dividing a finite number by zero never gives a finite number. *)
Lemma div_by_zero_not_finite : forall p : Qc,
  isFinite (Fin p / Fin 0%Qc)%num = false.
Proof.
  intro p. unfold div. rewrite Qc_eq_bool_refl.
  now destruct (p ?= 0)%Qc.
Qed.

(** A product with a non-finite left factor is not finite. *)
Lemma mul_not_finite_l : forall a b : number,
  isFinite a = false -> isFinite (a * b)%num = false.
Proof.
  intros [p | s | ] [q | t | ]; simpl; try discriminate; try reflexivity.
  intros _. now destruct (q ?= 0)%Qc.
Qed.

Lemma Qcminus_diag_zero : forall p : Qc, (p - p)%Qc = 0%Qc.
Proof. intro p. ring. Qed.

Lemma degenerate_bounds_of : forall n s e w : Qc,
  degenerate (bounds_of n s e w)
  = Qc_eq_bool (e - w)%Qc 0%Qc || Qc_eq_bool (n - s)%Qc 0%Qc.
Proof. reflexivity. Qed.




(** Closed inequalities and equalities between rationals. *)
Ltac qc_neq :=
  let H := fresh in
  intro H; apply Qceq_alt in H; vm_compute in H; discriminate H.

Ltac qc_eq := apply Qc_is_canon; vm_compute; reflexivity.

(* ===================================================================== *)
(** * The coordinate converter *)
(* ===================================================================== *)

(** The view of the specification's example, 512 by 512 pixels: pixel
    [(100, 200)] goes to a point of the box and comes back. *)
Example sample_pixel_round_trip :
  exists lng lat,
    pixelToGeo (ofZ 100) (ofZ 200) sampleBounds (ofZ 512) (ofZ 512)
    = Normal (Fin lng, Fin lat) /\
    (Q2Qc (- 9850 # 100) <= lng <= Q2Qc (- 9848 # 100))%Qc /\
    (Q2Qc (2942 # 100) <= lat <= Q2Qc (2943 # 100))%Qc /\
    geoToPixel sampleBounds (ofZ 512) (ofZ 512) (Fin lng) (Fin lat)
    = {| x := ofZ 100; y := ofZ 200 |}.
Proof.
  eexists. eexists. split; [vm_compute; reflexivity |].
  split; [| split].
  - split; vm_compute; discriminate.
  - split; vm_compute; discriminate.
  - unfold geoToPixel, sampleBounds, bounds_of, ofZ.
    cbn [north south east west]. rewrite !sub_Fin.
    rewrite !div_Fin by qc_neq. rewrite !mul_Fin.
    f_equal; f_equal; qc_eq.
Qed.

(** With [west = east] the helper divides by zero. *)
Example collapsed_box_gives_NaN :
  geoToPixel (bounds_of (Q2Qc 1) (Q2Qc 0) (Q2Qc 5) (Q2Qc 5)) (ofZ 512)
    (ofZ 512) (ofZ 5) (ofZ 1)
  = {| x := NaN; y := ofZ 0 |}.
Proof. reflexivity. Qed.

Example trim_strips_both_ends :
  trim (lit "  tennis courts  ") = lit "tennis courts" /\
  trim (40%N :: lit " ") = [40%N] /\
  trim [32; 160; 12288; 10]%N = [].
Proof. repeat split. Qed.





(* ===================================================================== *)
(** * Runs of canvas code *)
(* ===================================================================== *)

Lemma emits_ret : forall A (a : A), emits (ret a) a [].
Proof. intros A a log. unfold ret. now rewrite app_nil_r. Qed.

Lemma emits_call : forall op, emits (call op) tt [op].
Proof. intros op log. reflexivity. Qed.

Lemma emits_bind : forall A B (m : Ctx A) (k : A -> Ctx B) a b o1 o2,
  emits m a o1 -> emits (k a) b o2 -> emits (bind m k) b (o1 ++ o2).
Proof.
  intros A B m k a b o1 o2 Hm Hk log. unfold bind.
  rewrite Hm, Hk. now rewrite app_assoc.
Qed.

Lemma emits_call_then : forall B op (m : Ctx B) b ops,
  emits m b ops -> emits (call op ;; m) b (op :: ops).
Proof.
  intros B op m b ops Hm.
  exact (emits_bind (fun _ => m) (emits_call op) Hm).
Qed.

Lemma emits_for_of : forall A (body : A -> Ctx unit) (f : A -> list CanvasOp)
    (xs : list A),
  (forall a, In a xs -> emits (body a) tt (f a)) ->
  emits (for_of xs body) tt (List.concat (map f xs)).
Proof.
  intros A body f xs. induction xs as [| a xs IH]; intros H; simpl.
  - apply emits_ret.
  - apply (emits_bind (fun _ => for_of xs body) (a := tt)).
    + apply H. now left.
    + apply IH. intros a' Ha'. apply H. now right.
Qed.

Lemma only_TypeError_ret : forall A (a : A), only_TypeError (ret a).
Proof. intros A a log e H. discriminate H. Qed.

Lemma only_TypeError_call : forall op, only_TypeError (call op).
Proof. intros op log e H. discriminate H. Qed.

Lemma only_TypeError_bind : forall A B (m : Ctx A) (k : A -> Ctx B),
  only_TypeError m -> (forall a, only_TypeError (k a)) ->
  only_TypeError (bind m k).
Proof.
  intros A B m k Hm Hk log e. unfold bind.
  destruct (m log) as [[a log'] | e'] eqn:E.
  - apply Hk.
  - intro H. injection H as <-. exact (Hm _ _ E).
Qed.

Lemma only_TypeError_forEach_from :
  forall A (body : A -> nat -> Ctx unit) (xs : list A) (i : nat),
    (forall a j, only_TypeError (body a j)) ->
    only_TypeError (forEach_from body xs i).
Proof.
  intros A body xs. induction xs as [| a xs IH]; intros i H; simpl.
  - apply only_TypeError_ret.
  - apply only_TypeError_bind; [apply H | intros _; now apply IH].
Qed.

Lemma only_TypeError_for_of :
  forall A (body : A -> Ctx unit) (xs : list A),
    (forall a, only_TypeError (body a)) -> only_TypeError (for_of xs body).
Proof.
  intros A body xs H. induction xs as [| a xs IH]; simpl.
  - apply only_TypeError_ret.
  - apply only_TypeError_bind; [apply H | intros _; exact IH].
Qed.

Create HintDb canvas.

#[local] Hint Resolve only_TypeError_ret only_TypeError_call
  only_TypeError_bind only_TypeError_forEach_from only_TypeError_for_of
  : canvas.

Lemma only_TypeError_drawPolygon : forall toPixel rings,
  only_TypeError (drawPolygon toPixel rings).
Proof.
  intros toPixel rings. unfold drawPolygon.
  apply only_TypeError_bind; [auto with canvas | intros _].
  apply only_TypeError_bind.
  - destruct rings as [| r rings]; simpl.
    + intros log e H. now injection H as <-.
    + apply only_TypeError_ret.
  - intros coords. unfold ringPath, forEach.
    repeat (apply only_TypeError_bind; [| intros _]); auto with canvas.
    apply only_TypeError_forEach_from. intros coord j.
    destruct (Nat.eqb j 0); apply only_TypeError_call.
Qed.

Lemma only_TypeError_drawFeature : forall toPixel feature,
  only_TypeError (drawFeature toPixel feature).
Proof.
  intros toPixel feature. unfold drawFeature.
  repeat (apply only_TypeError_bind; [apply only_TypeError_call | intros _]).
  destruct (Api.geometry feature) as [rings | polygons | ].
  - apply only_TypeError_drawPolygon.
  - apply only_TypeError_for_of. intro. apply only_TypeError_drawPolygon.
  - apply only_TypeError_ret.
Qed.

Lemma only_TypeError_drawLegend : forall prompts,
  only_TypeError (drawLegend prompts).
Proof.
  intros prompts. unfold drawLegend, forEach.
  repeat (apply only_TypeError_bind; [apply only_TypeError_call | intros _]).
  apply only_TypeError_forEach_from. intros p j.
  repeat (apply only_TypeError_bind; [apply only_TypeError_call | intros _]).
  apply only_TypeError_call.
Qed.

Lemma only_TypeError_composite :
  forall image bounds width height results prompts,
    only_TypeError (composite image bounds width height results prompts).
Proof.
  intros. unfold composite.
  apply only_TypeError_bind; [apply only_TypeError_call | intros _].
  apply only_TypeError_bind.
  - apply only_TypeError_for_of. intro. apply only_TypeError_drawFeature.
  - intros _. apply only_TypeError_drawLegend.
Qed.

Lemma handleSaveImage_only_TypeError : forall decode hasContext s e,
  handleSaveImage decode hasContext s = Throw e -> e = TypeError.
Proof.
  intros decode hasContext s e. unfold handleSaveImage.
  destruct (previewImage s) as [image |]; [| discriminate].
  destruct (negb (truthy image)); [discriminate |].
  match goal with
  | |- context [match ?r with Some _ => _ | None => _ end = _ -> _] =>
      destruct r as [results |]
  end; [| discriminate].
  destruct (previewBounds s) as [bounds |]; [| discriminate].
  destruct (decode image) as [[width height] |]; [| discriminate].
  destruct (negb hasContext); [discriminate |].
  destruct (composite image bounds width height results (prompts s) [])
    as [[u canvas] | e'] eqn:E; [discriminate |].
  intro H. injection H as <-.
  exact (only_TypeError_composite _ _ _ _ _ _ _ E).
Qed.

(* ===================================================================== *)
(** * Degenerate bounds *)
(* ===================================================================== *)

(** C3, as the code has it.  On a bounding box with [west = east] or
    [north = south] the frontend converter raises nothing: [geoToPixel]
    carries out the division by zero, the coordinate on the collapsed
    axis is [NaN] or an infinity, and saving the image with such bounds
    never ends in a [DegenerateBoundsError]. *)
Theorem degenerate_bounds_divide_by_zero :
  forall n s e w width height lng lat : Qc,
    e = w \/ n = s ->
    let bbox := bounds_of n s e w in
    let p := geoToPixel bbox (Fin width) (Fin height) (Fin lng) (Fin lat) in
    degenerate bbox = true /\
    (e = w -> isFinite (x p) = false) /\
    (n = s -> isFinite (y p) = false) /\
    (forall decode hasContext st,
        previewBounds st = Some bbox ->
        handleSaveImage decode hasContext st <> Throw DegenerateBoundsError).
Proof.
  intros n s e w width height lng lat Hdeg bbox p. subst bbox p.
  split; [| split; [| split]].
  - rewrite degenerate_bounds_of.
    destruct Hdeg as [-> | ->]; rewrite Qcminus_diag_zero, Qc_eq_bool_refl.
    + reflexivity.
    + apply orb_true_r.
  - intros ->. unfold geoToPixel, bounds_of.
    cbn [x north south east west].
    apply mul_not_finite_l.
    rewrite !sub_Fin, Qcminus_diag_zero. apply div_by_zero_not_finite.
  - intros ->. unfold geoToPixel, bounds_of.
    cbn [y north south east west].
    apply mul_not_finite_l.
    rewrite !sub_Fin, Qcminus_diag_zero. apply div_by_zero_not_finite.
  - intros decode hasContext st _ H.
    apply handleSaveImage_only_TypeError in H. discriminate H.
Qed.

Lemma degenerate_bounds_divide_by_zero_witness :
  (Q2Qc 5 = Q2Qc 5 \/ Q2Qc 1 = Q2Qc 0) /\
  let bbox := bounds_of (Q2Qc 1) (Q2Qc 0) (Q2Qc 5) (Q2Qc 5) in
  let p := geoToPixel bbox (Fin (Q2Qc 512)) (Fin (Q2Qc 512))
             (Fin (Q2Qc 4)) (Fin (Q2Qc (1 # 2))) in
  degenerate bbox = true /\
  (Q2Qc 5 = Q2Qc 5 -> isFinite (x p) = false) /\
  (Q2Qc 1 = Q2Qc 0 -> isFinite (y p) = false) /\
  (forall decode hasContext st,
      previewBounds st = Some bbox ->
      handleSaveImage decode hasContext st <> Throw DegenerateBoundsError).
Proof.
  split.
  - left. reflexivity.
  - apply (@degenerate_bounds_divide_by_zero (Q2Qc 1) (Q2Qc 0) (Q2Qc 5)
             (Q2Qc 5) (Q2Qc 512) (Q2Qc 512) (Q2Qc 4) (Q2Qc (1 # 2))).
    left. reflexivity.
Defined.

(** C3 fails on the code: with [west = east = 5] the helper returns a
    point whose [x] is [NaN], and [handleSaveImage] draws the polygon and
    produces the composite instead of failing. *)
Lemma degenerate_bounds_are_not_rejected :
  let bbox := bounds_of (Q2Qc 1) (Q2Qc 0) (Q2Qc 5) (Q2Qc 5) in
  degenerate bbox = true /\
  x (geoToPixel bbox (ofN 512) (ofN 512) (ofZ 5) (ofZ 0)) = NaN /\
  (exists canvas,
      handleSaveImage (fun _ => Some (512%N, 512%N)) true
        (previewing bbox [triangle (Some (lit "#00FF00"))])
      = Normal (CompositeDownload 512 512 canvas) /\
      In (moveTo NaN (ofZ 512)) canvas) /\
  handleSaveImage (fun _ => Some (512%N, 512%N)) true
    (previewing bbox [triangle (Some (lit "#00FF00"))])
  <> Throw DegenerateBoundsError.
Proof.
  split; [| split; [| split]].
  - vm_compute. reflexivity.
  - vm_compute. reflexivity.
  - eexists. split.
    + vm_compute. reflexivity.
    + do 5 right. left. reflexivity.
  - intro H. apply handleSaveImage_only_TypeError in H. discriminate H.
Qed.

(* ===================================================================== *)
(** * What the compositor draws *)
(* ===================================================================== *)

Lemma emits_lineTos : forall toPixel (ring : Api.Ring) i,
  i <> 0 ->
  emits
    (forEach_from
       (fun (coord : Api.Position) i =>
          let p := toPixel (item coord 0) (item coord 1) in
          if Nat.eqb i 0 then call (moveTo (x p) (y p))
          else call (lineTo (x p) (y p))) ring i)
    tt (map (fun q : Point => lineTo (x q) (y q)) (ringVertices toPixel ring)).
Proof.
  intros toPixel ring. induction ring as [| coord ring IH]; intros i Hi.
  - apply emits_ret.
  - cbn [forEach_from ringVertices map].
    apply (emits_bind _ (a := tt)
             (o1 := [lineTo (x (toPixel (item coord 0) (item coord 1)))
                            (y (toPixel (item coord 0) (item coord 1)))])).
    + cbv zeta. destruct (Nat.eqb_spec i 0) as [E | _]; [now elim Hi |].
      apply emits_call.
    + apply IH. discriminate.
Qed.

Lemma emits_ringPath : forall toPixel ring,
  emits (ringPath toPixel ring) tt (pathOps (ringVertices toPixel ring)).
Proof.
  intros toPixel [| coord ring]; unfold ringPath, forEach.
  - apply emits_ret.
  - cbn [forEach_from ringVertices map pathOps].
    apply (emits_bind _ (a := tt)
             (o1 := [moveTo (x (toPixel (item coord 0) (item coord 1)))
                            (y (toPixel (item coord 0) (item coord 1)))])).
    + apply emits_call.
    + apply emits_lineTos. discriminate.
Qed.

Lemma emits_drawPolygon : forall toPixel outer holes,
  emits (drawPolygon toPixel (outer :: holes)) tt (polygonOps toPixel outer).
Proof.
  intros toPixel outer holes. unfold drawPolygon, polygonOps.
  apply emits_call_then.
  apply (emits_bind _ (a := outer) (o1 := [])); [apply emits_ret |].
  apply (emits_bind _ (a := tt)); [apply emits_ringPath |].
  repeat apply emits_call_then. apply emits_call.
Qed.

Lemma emits_drawFeature : forall toPixel feature,
  hasOuterRings (Api.geometry feature) = true ->
  emits (drawFeature toPixel feature) tt (featureOps toPixel feature).
Proof.
  intros toPixel feature H. unfold drawFeature, featureOps, styleOps.
  repeat apply emits_call_then.
  destruct (Api.geometry feature) as [rings | polygons | ].
  - destruct rings as [| outer holes]; [discriminate H |].
    apply emits_drawPolygon.
  - apply emits_for_of. intros rings Hin. simpl in H.
    rewrite forallb_forall in H. specialize (H _ Hin).
    destruct rings as [| outer holes]; [discriminate H |].
    apply emits_drawPolygon.
  - apply emits_ret.
Qed.

Lemma paintsNothing_nil : paintsNothing [].
Proof. intros st rest. now exists st. Qed.

Lemma paintsNothing_app : forall o1 o2,
  paintsNothing o1 -> paintsNothing o2 -> paintsNothing (o1 ++ o2).
Proof.
  intros o1 o2 H1 H2 st rest. rewrite <- app_assoc.
  destruct (H1 st (o2 ++ rest)) as [st1 E1]. rewrite E1. apply H2.
Qed.

Lemma paintsNothing_cons : forall op ops,
  match op with fillRect _ _ _ _ | fillText _ _ _ => False | _ => True end ->
  paintsNothing ops -> paintsNothing (op :: ops).
Proof.
  intros op ops Hop H st rest.
  destruct op; try contradiction; simpl; apply H.
Qed.

Lemma paintsNothing_lineTos : forall pts : list Point,
  paintsNothing (map (fun q => lineTo (x q) (y q)) pts).
Proof.
  induction pts as [| q pts IH]; simpl.
  - apply paintsNothing_nil.
  - now apply paintsNothing_cons.
Qed.

Lemma paintsNothing_polygonOps : forall toPixel outer,
  paintsNothing (polygonOps toPixel outer).
Proof.
  intros toPixel outer. unfold polygonOps.
  apply paintsNothing_app; [| apply paintsNothing_app].
  - apply paintsNothing_cons; [exact I | apply paintsNothing_nil].
  - unfold pathOps. destruct (ringVertices toPixel outer) as [| p ps].
    + apply paintsNothing_nil.
    + apply paintsNothing_cons; [exact I | apply paintsNothing_lineTos].
  - repeat (apply paintsNothing_cons; [exact I |]). apply paintsNothing_nil.
Qed.

Lemma paintsNothing_concat : forall A (f : A -> list CanvasOp) (xs : list A),
  (forall a, paintsNothing (f a)) -> paintsNothing (List.concat (map f xs)).
Proof.
  intros A f xs H. induction xs as [| a xs IH]; simpl.
  - apply paintsNothing_nil.
  - apply paintsNothing_app; [apply H | exact IH].
Qed.

Lemma paintsNothing_featureOps : forall toPixel feature,
  paintsNothing (featureOps toPixel feature).
Proof.
  intros toPixel feature. unfold featureOps.
  apply paintsNothing_app.
  - unfold styleOps.
    repeat (apply paintsNothing_cons; [exact I |]). apply paintsNothing_nil.
  - destruct (Api.geometry feature) as [rings | polygons | ].
    + apply paintsNothing_polygonOps.
    + apply paintsNothing_concat. intro. apply paintsNothing_polygonOps.
    + apply paintsNothing_nil.
Qed.

(** The rows of the legend, from row [i] on. *)
Lemma legend_rows : forall (prompts : list PromptInput.Prompt) (i : nat),
  exists ops,
    emits
      (forEach_from
         (fun (prompt : PromptInput.Prompt) i =>
            let y := (ofZ 20 + ofNat i * ofZ 25)%num in
            call (set_fillStyle (PromptInput.color prompt)) ;;
            call (fillRect (ofZ 10) y (ofZ 20) (ofZ 15)) ;;
            call (set_strokeStyle (lit "#000")) ;;
            call (strokeRect (ofZ 10) y (ofZ 20) (ofZ 15)) ;;
            call (set_fillStyle (lit "#fff")) ;;
            call (fillText (PromptInput.text prompt) (ofZ 10 + ofZ 28)
                    (y + ofZ 12))%num) prompts i) tt ops /\
    (forall st, painted st ops = legendEntries i prompts) /\
    noPathOps ops = true.
Proof.
  intros prompts. induction prompts as [| p ps IH]; intros i.
  - exists []. split; [apply emits_ret | split; [reflexivity | reflexivity]].
  - destruct (IH (S i)) as (ops & Hrun & Hpaint & Hpath).
    eexists. split; [| split].
    + cbn [forEach_from]. cbv zeta.
      apply (emits_bind _ (a := tt)); [| exact Hrun].
      repeat apply emits_call_then. apply emits_call.
    + intros st. cbn [app painted legendEntries legendEntry].
      now rewrite Hpaint.
    + cbn [app noPathOps forallb isPathOp negb andb]. exact Hpath.
Qed.

Lemma emits_drawLegend : forall prompts,
  exists ops,
    emits (drawLegend prompts) tt ops /\
    (forall st, painted st ops
                = Rect (lit "rgba(0, 0, 0, 0.7)") (ofZ 20 - ofZ 15)%num
                  :: legendEntries 0 prompts) /\
    noPathOps ops = true.
Proof.
  intros prompts.
  destruct (legend_rows prompts 0) as (ops & Hrun & Hpaint & Hpath).
  eexists. split; [| split].
  - unfold drawLegend, forEach. cbv zeta.
    repeat apply emits_call_then. exact Hrun.
  - intros st. cbn [painted]. now rewrite Hpaint.
  - cbn [noPathOps forallb isPathOp negb andb]. exact Hpath.
Qed.

Lemma emits_composite :
  forall image bounds width height results prompts,
    wellFormed results = true ->
    exists legend,
      emits (drawLegend prompts) tt legend /\
      emits (composite image bounds width height results prompts) tt
        (drawImage image (ofZ 0) (ofZ 0)
         :: List.concat
              (map (featureOps (geoToPixel bounds (ofN width) (ofN height)))
                   (Api.features results))
            ++ legend) /\
      (forall st, painted st legend
                  = Rect (lit "rgba(0, 0, 0, 0.7)") (ofZ 20 - ofZ 15)%num
                    :: legendEntries 0 prompts) /\
      noPathOps legend = true.
Proof.
  intros image bounds width height results prompts Hwf.
  destruct (emits_drawLegend prompts) as (legend & Hrun & Hpaint & Hpath).
  exists legend. split; [exact Hrun | split; [| split; assumption]].
  unfold composite. apply emits_call_then. cbv zeta.
  apply (emits_bind _ (a := tt)); [| exact Hrun].
  apply emits_for_of. intros f Hin. apply emits_drawFeature.
  unfold wellFormed in Hwf. rewrite forallb_forall in Hwf. now apply Hwf.
Qed.

(** C4. Compositing an empty FeatureCollection gives the captured image
    with the legend on it and nothing else: the canvas holds the
    [drawImage] of the original followed by exactly what [drawLegend]
    draws, and none of these calls builds, fills or strokes a path. *)
Theorem empty_collection_draws_only_legend :
  forall image bounds width height prompts,
    exists legend,
      drawLegend prompts [] = Normal (tt, legend) /\
      composite image bounds width height {| Api.features := [] |} prompts []
      = Normal (tt, drawImage image (ofZ 0) (ofZ 0) :: legend) /\
      noPathOps (drawImage image (ofZ 0) (ofZ 0) :: legend) = true.
Proof.
  intros image bounds width height prompts.
  destruct (@emits_composite image bounds width height
              {| Api.features := [] |} prompts eq_refl)
    as (legend & Hlegend & Hrun & _ & Hpath).
  exists legend. split; [| split].
  - exact (Hlegend []).
  - exact (Hrun []).
  - exact Hpath.
Qed.

Lemma drawPolygon_outer_ring : forall toPixel rings log,
  drawPolygon toPixel rings log = drawPolygon toPixel (firstn 1 rings) log.
Proof. intros toPixel [| outer holes] log; reflexivity. Qed.

Lemma for_of_outer_rings : forall toPixel (polygons : list (list Api.Ring)) log,
  for_of polygons (fun polygon => drawPolygon toPixel polygon) log
  = for_of (map (firstn 1) polygons)
      (fun polygon => drawPolygon toPixel polygon) log.
Proof.
  intros toPixel polygons.
  induction polygons as [| rings polygons IH]; intro log.
  - reflexivity.
  - cbn [map for_of]. unfold bind.
    rewrite <- drawPolygon_outer_ring.
    destruct (drawPolygon toPixel rings log) as [[u log'] | e];
      [apply IH | reflexivity].
Qed.

(** C5. Only ring [0] of a polygon reaches the canvas.  A [Polygon]
    feature draws one path, made of the vertices of [coordinates[0]];
    a [MultiPolygon] feature draws one such path per member, in the
    order of the members, each from the member's ring [0]; and removing
    every inner ring from either kind of geometry leaves the run of
    [drawFeature] unchanged. *)
Theorem only_outer_rings_are_drawn :
  forall toPixel props,
    (forall outer holes log,
        let feature := {| Api.geometry := Api.Polygon (outer :: holes);
                          Api.properties := props |} in
        drawFeature toPixel feature log
        = Normal (tt, log ++ styleOps (featureColor feature)
                          ++ polygonOps toPixel outer)) /\
    (forall polygons log,
        Forall (fun rings : list Api.Ring => rings <> []) polygons ->
        let feature := {| Api.geometry := Api.MultiPolygon polygons;
                          Api.properties := props |} in
        drawFeature toPixel feature log
        = Normal (tt, log ++ styleOps (featureColor feature)
                          ++ List.concat
                               (map (fun rings =>
                                       polygonOps toPixel (ring0 rings))
                                    polygons))) /\
    (forall rings log,
        drawFeature toPixel
          {| Api.geometry := Api.Polygon rings; Api.properties := props |} log
        = drawFeature toPixel
            {| Api.geometry := Api.Polygon (firstn 1 rings);
               Api.properties := props |} log) /\
    (forall polygons log,
        drawFeature toPixel
          {| Api.geometry := Api.MultiPolygon polygons;
             Api.properties := props |} log
        = drawFeature toPixel
            {| Api.geometry := Api.MultiPolygon (map (firstn 1) polygons);
               Api.properties := props |} log).
Proof.
  intros toPixel props. split; [| split; [| split]].
  - intros outer holes log.
    exact (@emits_drawFeature toPixel
             {| Api.geometry := Api.Polygon (outer :: holes);
                Api.properties := props |} eq_refl log).
  - intros polygons log Hne feature. subst feature.
    apply (@emits_drawFeature toPixel
             {| Api.geometry := Api.MultiPolygon polygons;
                Api.properties := props |}).
    simpl. rewrite forallb_forall. intros rings Hin.
    rewrite Forall_forall in Hne. specialize (Hne _ Hin).
    now destruct rings.
  - intros [| outer holes] log; reflexivity.
  - intros polygons log. unfold drawFeature. cbn [Api.geometry].
    unfold bind. cbn [call]. apply for_of_outer_rings.
Qed.

Lemma only_outer_rings_are_drawn_witness :
  let toPixel := geoToPixel (bounds_of (Q2Qc 1) (Q2Qc 0) (Q2Qc 1) (Q2Qc 0))
                   (ofN 4) (ofN 4) in
  let outer := [ [ofZ 0; ofZ 1]; [ofZ 1; ofZ 1]; [ofZ 1; ofZ 0] ] in
  let hole := [ [ofZ 0; ofZ 0] ] in
  Forall (fun rings : list Api.Ring => rings <> []) [ [outer; hole]; [outer] ]
  /\
  drawFeature toPixel
    {| Api.geometry := Api.MultiPolygon [ [outer; hole]; [outer] ];
       Api.properties := None |} []
  = Normal (tt, styleOps (lit "#FF0000")
                ++ polygonOps toPixel outer ++ polygonOps toPixel outer).
Proof.
  intros toPixel outer hole.
  assert (H : Forall (fun rings : list Api.Ring => rings <> [])
                     [ [outer; hole]; [outer] ])
    by (repeat constructor; discriminate).
  split; [exact H |].
  rewrite (proj1 (proj2 (@only_outer_rings_are_drawn toPixel None))
             [ [outer; hole]; [outer] ] [] H).
  reflexivity.
Defined.

(** C6 fails on the code: a colour string that is no colour is not
    replaced.  The feature's styles are set to the string itself (with
    ["66"] appended for the fill), not to ['#FF0000']. *)
Lemma unparsable_color_is_kept :
  let feature := triangle (Some (lit "not-a-color")) in
  isHexColor (lit "not-a-color") = false /\
  featureColor feature = lit "not-a-color" /\
  featureColor feature <> lit "#FF0000" /\
  forall toPixel,
    exists rest,
      drawFeature toPixel feature []
      = Normal (tt, set_fillStyle (lit "not-a-color66")
                    :: set_strokeStyle (lit "not-a-color") :: rest).
Proof.
  intros feature. split; [| split; [| split]].
  - reflexivity.
  - reflexivity.
  - discriminate.
  - intros toPixel. eexists.
    rewrite (@emits_drawFeature toPixel feature eq_refl []).
    reflexivity.
Qed.

(** C6, as the code has it.  The compositor parses no colour.  A
    feature gets ['#FF0000'] when its properties, its colour, or the
    characters of its colour are missing; any other colour string is
    used as it is.  Whenever every polygon has an outer ring the
    composite runs to completion, whatever the colours: the canvas
    holds the image, then for each feature in order its styles and its
    paths, then the legend. *)
Theorem default_color_only_for_missing_color :
  (forall geometry,
      featureColor {| Api.geometry := geometry; Api.properties := None |}
      = lit "#FF0000") /\
  (forall geometry props,
      Api.pcolor props = None \/ Api.pcolor props = Some [] ->
      featureColor {| Api.geometry := geometry;
                      Api.properties := Some props |}
      = lit "#FF0000") /\
  (forall geometry props c,
      Api.pcolor props = Some c -> c <> [] ->
      featureColor {| Api.geometry := geometry;
                      Api.properties := Some props |}
      = c) /\
  (forall image bounds width height results prompts,
      wellFormed results = true ->
      exists legend,
        drawLegend prompts [] = Normal (tt, legend) /\
        composite image bounds width height results prompts []
        = Normal (tt,
                  drawImage image (ofZ 0) (ofZ 0)
                  :: List.concat
                       (map (featureOps
                               (geoToPixel bounds (ofN width) (ofN height)))
                            (Api.features results))
                     ++ legend)).
Proof.
  split; [| split; [| split]].
  - reflexivity.
  - intros geometry props [H | H]; unfold featureColor; simpl; now rewrite H.
  - intros geometry props c H Hc. unfold featureColor; simpl. rewrite H.
    destruct c; [now elim Hc | reflexivity].
  - intros image bounds width height results prompts Hwf.
    destruct (@emits_composite image bounds width height results prompts Hwf)
      as (legend & Hlegend & Hrun & _).
    exists legend. split; [exact (Hlegend []) | exact (Hrun [])].
Qed.

Lemma default_color_only_for_missing_color_witness :
  let bbox := bounds_of (Q2Qc 1) (Q2Qc 0) (Q2Qc 6) (Q2Qc 4) in
  let results :=
    {| Api.features := [triangle (Some (lit "not-a-color")); triangle None] |}
  in
  wellFormed results = true /\
  exists legend,
    drawLegend (prompts initialState) [] = Normal (tt, legend) /\
    composite sampleImage bbox 4 4 results
      (prompts initialState) []
    = Normal (tt,
              drawImage sampleImage (ofZ 0) (ofZ 0)
              :: List.concat
                   (map (featureOps (geoToPixel bbox (ofN 4) (ofN 4)))
                        (Api.features results))
                 ++ legend).
Proof.
  intros bbox results. split.
  - reflexivity.
  - apply (proj2 (proj2 (proj2 default_color_only_for_missing_color))).
    reflexivity.
Defined.

(** C8. The legend of a composite shows the configured prompts, one row
    each, in the order of the [prompts] list and whatever the detection
    results are: after the panel, row [i] is a swatch filled with the
    colour of prompt [i] followed by the text of prompt [i], and the
    canvas shows no other filled rectangle or text. *)
Theorem legend_lists_prompts_in_input_order :
  forall image bounds width height results prompts,
    wellFormed results = true ->
    exists canvas,
      composite image bounds width height results prompts []
      = Normal (tt, canvas) /\
      forall st,
        painted st canvas
        = Rect (lit "rgba(0, 0, 0, 0.7)") (ofZ 20 - ofZ 15)%num
          :: legendEntries 0 prompts.
Proof.
  intros image bounds width height results prompts Hwf.
  destruct (@emits_composite image bounds width height results prompts Hwf)
    as (legend & _ & Hrun & Hpaint & _).
  eexists. split; [exact (Hrun []) |].
  intros st. cbn [app painted].
  destruct (@paintsNothing_concat _
              (featureOps (geoToPixel bounds (ofN width) (ofN height)))
              (Api.features results)
              (paintsNothing_featureOps _) st legend) as [st' E].
  rewrite E. apply Hpaint.
Qed.

Lemma legend_lists_prompts_in_input_order_witness :
  let bbox := bounds_of (Q2Qc 1) (Q2Qc 0) (Q2Qc 6) (Q2Qc 4) in
  let red := {| PromptInput.id := 1; PromptInput.text := lit "roofs";
                PromptInput.color := lit "#FF0000" |} in
  let green := {| PromptInput.id := 2; PromptInput.text := lit "trees";
                  PromptInput.color := lit "#00FF00" |} in
  let results :=
    {| Api.features := [triangle (Some (lit "#00FF00"));
                        triangle (Some (lit "#FF0000"))] |} in
  wellFormed results = true /\
  exists canvas,
    composite sampleImage bbox 4 4 results
      [red; green] []
    = Normal (tt, canvas) /\
    forall st,
      painted st canvas
      = [ Rect (lit "rgba(0, 0, 0, 0.7)") (ofZ 20 - ofZ 15)%num;
          Rect (lit "#FF0000") (legendRow 0);
          Text (lit "#fff") (lit "roofs") (legendRow 0 + ofZ 12)%num;
          Rect (lit "#00FF00") (legendRow 1);
          Text (lit "#fff") (lit "trees") (legendRow 1 + ofZ 12)%num ].
Proof.
  intros bbox red green results. split.
  - reflexivity.
  - apply (@legend_lists_prompts_in_input_order
             sampleImage bbox 4%N 4%N results
             [red; green]).
    reflexivity.
Defined.

(* ===================================================================== *)
(** * Blank prompts and the request *)
(* ===================================================================== *)

Lemma trimStart_nil_iff : forall s, trimStart s = [] <-> blank s = true.
Proof.
  induction s as [| c s IH]; simpl.
  - tauto.
  - destruct (isWhiteSpace c); simpl.
    + exact IH.
    + split; discriminate.
Qed.

Lemma blank_app : forall s t, blank (s ++ t) = blank s && blank t.
Proof. intros s t. unfold blank. apply forallb_app. Qed.

Lemma blank_rev : forall s, blank (rev s) = blank s.
Proof.
  induction s as [| c s IH]; simpl.
  - reflexivity.
  - rewrite blank_app, IH. simpl. rewrite andb_true_r. apply andb_comm.
Qed.

Lemma blank_trimStart : forall s, blank (trimStart s) = blank s.
Proof.
  induction s as [| c s IH]; simpl.
  - reflexivity.
  - destruct (isWhiteSpace c) eqn:E; simpl.
    + exact IH.
    + now rewrite E.
Qed.

(** [p.text.trim()] is falsy exactly on a text made of white space. *)
Lemma truthy_trim : forall s, truthy (trim s) = negb (blank s).
Proof.
  intro s. unfold trim, trimEnd.
  destruct (blank s) eqn:B.
  - assert (E : trimStart (rev (trimStart s)) = []).
    { apply trimStart_nil_iff. now rewrite blank_rev, blank_trimStart. }
    now rewrite E.
  - destruct (trimStart (rev (trimStart s))) as [| c r] eqn:E.
    + apply trimStart_nil_iff in E.
      rewrite blank_rev, blank_trimStart in E. congruence.
    + simpl. now destruct (rev r).
Qed.

Lemma apiPrompts_nonBlank : forall prompts,
  apiPrompts prompts = nonBlankPrompts prompts.
Proof.
  intro prompts. unfold apiPrompts, nonBlankPrompts. f_equal.
  apply filter_ext. intro p. apply truthy_trim.
Qed.

Lemma filter_all : forall A (f : A -> bool) (l : list A),
  existsb (fun a => negb (f a)) l = false -> filter f l = l.
Proof.
  intros A f l. induction l as [| a l IH]; simpl; intro H.
  - reflexivity.
  - apply orb_false_iff in H. destruct H as [Ha Hl].
    apply negb_false_iff in Ha. rewrite Ha. f_equal. now apply IH.
Qed.

(** C10. Every detection request carries exactly the configured prompts
    whose text is not blank, reduced to text and colour, in their
    original order.  [handleConfirmDetection] sends a request whenever a
    preview image and its bounds are there, and drops the blank prompts
    without a message; [handleImageCapture] sends one only when no
    prompt is blank, so its request holds all of them.  Neither handler
    sends anything else. *)
Theorem requests_hold_nonblank_prompts_in_order :
  forall s : State,
    (forall image bounds,
        previewImage s = Some image -> truthy image = true ->
        previewBounds s = Some bounds ->
        exists s' p,
          handleConfirmDetection s = (s', Some p) /\
          request p
          = {| Api.image := image;
               Api.prompts := nonBlankPrompts (prompts s);
               Api.bounds := bounds;
               Api.zoom := zoom s;
               Api.confidence := confidence s |}) /\
    (forall s' p,
        handleConfirmDetection s = (s', Some p) ->
        Api.prompts (request p) = nonBlankPrompts (prompts s)) /\
    (forall image bounds s' p,
        handleImageCapture image bounds s = (s', Some p) ->
        Api.prompts (request p) = nonBlankPrompts (prompts s) /\
        nonBlankPrompts (prompts s) = map toApiPrompt (prompts s)).
Proof.
  intro s. split; [| split].
  - intros image bounds Himg Htruthy Hb. unfold handleConfirmDetection.
    rewrite Himg, Hb, Htruthy. eexists. eexists. split; [reflexivity |].
    cbn [request]. unfold Api.detectObjects. now rewrite apiPrompts_nonBlank.
  - intros s' p. unfold handleConfirmDetection.
    destruct (previewImage s) as [image |]; [| discriminate].
    destruct (previewBounds s) as [bounds |]; [| discriminate].
    destruct (truthy image); [| discriminate].
    intro H. injection H as _ <-. cbn. apply apiPrompts_nonBlank.
  - intros image bounds s' p. unfold handleImageCapture.
    destruct (negb (mapRef s) || Nat.eqb (List.length (prompts s)) 0
              || existsb (fun p => negb (truthy (trim (PromptInput.text p))))
                         (prompts s)) eqn:G; [discriminate |].
    intro H. injection H as _ <-. cbn. split.
    + apply apiPrompts_nonBlank.
    + apply orb_false_iff in G. destruct G as [_ G].
      rewrite <- apiPrompts_nonBlank. unfold apiPrompts.
      now rewrite (filter_all _ _ G).
Qed.

Lemma requests_hold_nonblank_prompts_in_order_witness :
  let s := setPrompts
             (PromptInput.updatePrompt 7 (PromptInput.SetText (lit "  "))
                (PromptInput.addPrompt 7 (prompts initialState)))
             (ui (react (react initialWorld MapLoaded)
                        (ClickDetect (Captured sampleImage sampleBounds)))) in
  (previewImage s = Some sampleImage /\ truthy sampleImage = true /\
   previewBounds s = Some sampleBounds) /\
  map PromptInput.text (prompts s)
  = [lit "trees"; lit "buildings"; lit "  "] /\
  exists s' p,
    handleConfirmDetection s = (s', Some p) /\
    request p
    = {| Api.image := sampleImage;
         Api.prompts :=
           [ {| Api.text := lit "trees"; Api.color := lit "#00FF00" |};
             {| Api.text := lit "buildings"; Api.color := lit "#FF69B4" |} ];
         Api.bounds := sampleBounds;
         Api.zoom := zoom s;
         Api.confidence := confidence s |}.
Proof.
  intros s. split; [| split].
  - repeat split; reflexivity.
  - reflexivity.
  - apply (proj1 (@requests_hold_nonblank_prompts_in_order s)
             sampleImage sampleBounds); reflexivity.
Defined.

(* ===================================================================== *)
(** * Invariants of the transition system *)
(* ===================================================================== *)

Lemma react_quiet : forall w e,
  quiet e = true ->
  isLoading (ui (react w e)) = isLoading (ui w) /\
  inflight (react w e) = inflight w /\
  capturedImages (ui (react w e)) = capturedImages (ui w).
Proof.
  intros [s fl] e Hq. destruct e; try discriminate Hq; cbn [react ui inflight];
    try (repeat split; reflexivity).
  - unfold handleDetect.
    destruct (negb (mapRef s)); [repeat split; reflexivity |].
    destruct r; repeat split; reflexivity.
  - destruct (nth_error (capturedImages s) i) as [c |];
      [| repeat split; reflexivity].
    unfold selectCapture. destruct (CapturedImage.results c);
      repeat split; reflexivity.
Qed.

Lemma handleConfirmDetection_cases : forall s,
  handleConfirmDetection s = (s, None) \/
  exists p,
    handleConfirmDetection s
    = (setError None (setIsLoading true (setShowPreview false s)), Some p) /\
    origin p = FromConfirm.
Proof.
  intro s. unfold handleConfirmDetection.
  destruct (previewImage s) as [image |]; [| now left].
  destruct (previewBounds s) as [bounds |]; [| now left].
  destruct (truthy image); [| now left].
  right. eexists. split; reflexivity.
Qed.

Lemma isLoading_resume : forall p now r s,
  isLoading (resume p now r s) = false.
Proof.
  intros p now r s. unfold resume.
  destruct r; [destruct (origin p) |]; reflexivity.
Qed.

Lemma capturedImages_resume : forall p now r s,
  capturedImages (resume p now r s)
  = match r, origin p with
    | Fulfilled results, FromConfirm =>
        firstn 10 (newCapture p now results :: capturedImages s)
    | _, _ => capturedImages s
    end.
Proof.
  intros p now r s. unfold resume.
  destruct r; [destruct (origin p) |]; reflexivity.
Qed.

Lemma consistent_step : forall w e w',
  consistent w -> step w e w' -> consistent w'.
Proof.
  intros w e w' Hc Hs. destruct Hs as [w e Hen].
  destruct (quiet e) eqn:Hq.
  - destruct (react_quiet w e Hq) as (Hl & Hf & _).
    unfold consistent. rewrite Hl, Hf. exact Hc.
  - destruct e; try discriminate Hq.
    + (* Run Detection *)
      cbn [enabled] in Hen. apply andb_true_iff in Hen.
      destruct Hen as [_ Hidle]. apply negb_true_iff in Hidle.
      destruct Hc as [[Hfl _] | (p & _ & Hl & _)]; [| congruence].
      cbn [react].
      destruct (handleConfirmDetection_cases (ui w)) as [E | (p & E & Ho)];
        rewrite E.
      * left. split; assumption.
      * right. exists p. cbn [ui inflight]. rewrite Hfl. repeat split.
        exact Ho.
    + (* a response *)
      cbn [enabled] in Hen. cbn [react].
      destruct (nth_error (inflight w) i) as [p |] eqn:E; [| discriminate Hen].
      destruct Hc as [[Hfl _] | (q & Hfl & _)].
      * rewrite Hfl in E. destruct i; discriminate E.
      * left. cbn [ui inflight]. rewrite Hfl in *.
        destruct i as [| i]; [| destruct i; discriminate E].
        split; [reflexivity | apply isLoading_resume].
Qed.

Lemma reachable_consistent : forall w, reachable w -> consistent w.
Proof.
  intros w H. induction H as [| w e w' _ IH Hs].
  - left. split; reflexivity.
  - exact (consistent_step IH Hs).
Qed.

Lemma length_removeAt : forall A (l : list A) i,
  List.length (removeAt i l) <= List.length l.
Proof.
  intros A l. induction l as [| a l IH]; intros [| i]; simpl; try lia.
  specialize (IH i). lia.
Qed.

(** C7. In every reachable state at most one detection request is in
    flight, [isLoading] is true exactly while it is, both trigger
    buttons ("Detect in View" and "Run Detection") are then disabled,
    and no action open to the user sends another request. *)
Theorem at_most_one_detection_in_flight :
  forall w, reachable w ->
    List.length (inflight w) <= 1 /\
    (inflight w <> [] <-> isLoading (ui w) = true) /\
    (isLoading (ui w) = true ->
       (forall r, enabled w (ClickDetect r) = false) /\
       enabled w ClickRunDetection = false) /\
    (inflight w <> [] -> forall e, ~ initiates w e).
Proof.
  intros w Hr. pose proof (reachable_consistent Hr) as Hc.
  assert (Hiff : inflight w <> [] <-> isLoading (ui w) = true).
  { destruct Hc as [[Hfl Hl] | (p & Hfl & Hl & _)]; rewrite Hfl, Hl.
    - split; [intro H; now elim H | discriminate].
    - split; [reflexivity | discriminate]. }
  assert (Hoff : isLoading (ui w) = true ->
                 (forall r, enabled w (ClickDetect r) = false) /\
                 enabled w ClickRunDetection = false).
  { intro Hl. cbn [enabled]. rewrite Hl. split.
    - reflexivity.
    - apply andb_false_r. }
  split; [| split; [| split]].
  - destruct Hc as [[Hfl _] | (p & Hfl & _)]; rewrite Hfl; simpl; lia.
  - exact Hiff.
  - exact Hoff.
  - intros Hne e [Hen Hgrow].
    apply Hiff in Hne. destruct (Hoff Hne) as [_ Hrun].
    destruct (quiet e) eqn:Hq.
    + destruct (react_quiet w e Hq) as (_ & Hf & _). rewrite Hf in Hgrow. lia.
    + destruct e; try discriminate Hq.
      * congruence.
      * cbn [react] in Hgrow.
        destruct (nth_error (inflight w) i) as [p |]; [| lia].
        cbn [inflight] in Hgrow.
        pose proof (length_removeAt (inflight w) i). lia.
Qed.

Lemma run_reachable : forall es w w',
  reachable w -> run es w = Some w' -> reachable w'.
Proof.
  induction es as [| e es IH]; intros w w' Hr H; simpl in H.
  - injection H as <-. exact Hr.
  - destruct (enabled w e) eqn:Hen; [| discriminate H].
    apply (IH (react w e) w'); [| exact H].
    apply (@reach_step w e); [exact Hr | now apply step_event].
Defined.

Lemma reachable_fullAndDetecting : reachable fullAndDetecting.
Proof.
  apply (@run_reachable tenCaptures initialWorld); [apply reach_init |].
  vm_compute. reflexivity.
Defined.

(** After the eleventh answer the history holds the ten newest
    captures, newest first; the capture of time 1 is gone. *)
Example history_after_eleven_detections :
  map CapturedImage.id
      (capturedImages
         (ui (react fullAndDetecting (Settle 0 11 (Fulfilled None)))))
  = [11; 10; 9; 8; 7; 6; 5; 4; 3; 2]%N.
Proof. vm_compute. reflexivity. Qed.

Lemma reachable_detecting : reachable detecting.
Proof.
  unfold detecting.
  repeat (eapply reach_step; [| apply step_event; reflexivity]).
  apply reach_init.
Defined.

Lemma at_most_one_detection_in_flight_witness :
  reachable detecting /\
  List.length (inflight detecting) <= 1 /\
  (inflight detecting <> [] <-> isLoading (ui detecting) = true) /\
  (isLoading (ui detecting) = true ->
     (forall r, enabled detecting (ClickDetect r) = false) /\
     enabled detecting ClickRunDetection = false) /\
  (inflight detecting <> [] -> forall e, ~ initiates detecting e).
Proof.
  split.
  - exact reachable_detecting.
  - apply (@at_most_one_detection_in_flight detecting reachable_detecting).
Defined.

Lemma reachable_history_bounded : forall w,
  reachable w -> List.length (capturedImages (ui w)) <= 10.
Proof.
  intros w H. induction H as [| w e w' _ IH Hs].
  - simpl. lia.
  - destruct Hs as [w e Hen]. destruct (quiet e) eqn:Hq.
    + destruct (react_quiet w e Hq) as (_ & _ & Hc). now rewrite Hc.
    + destruct e; try discriminate Hq; cbn [react].
      * destruct (handleConfirmDetection_cases (ui w)) as [E | (p & E & _)];
          rewrite E; exact IH.
      * destruct (nth_error (inflight w) i) as [p |]; [| exact IH].
        cbn [ui]. rewrite capturedImages_resume.
        destruct r; [destruct (origin p) |]; try exact IH.
        rewrite length_firstn. lia.
Qed.

(** C9. The capture history never holds more than ten entries.  When a
    detection request of a reachable state is answered, the new capture
    becomes the first entry and the nine most recent older entries
    follow it in their order: with ten entries already there, the oldest
    is dropped. *)
Theorem capture_history_keeps_ten_newest_first :
  forall w, reachable w ->
    List.length (capturedImages (ui w)) <= 10 /\
    forall i now results p,
      nth_error (inflight w) i = Some p ->
      let w' := react w (Settle i now (Fulfilled results)) in
      step w (Settle i now (Fulfilled results)) w' /\
      capturedImages (ui w')
      = newCapture p now results :: firstn 9 (capturedImages (ui w)) /\
      List.length (capturedImages (ui w'))
      = Nat.min 10 (S (List.length (capturedImages (ui w)))).
Proof.
  intros w Hr. split; [exact (reachable_history_bounded Hr) |].
  intros i now results p Hp w'. subst w'.
  assert (Ho : origin p = FromConfirm).
  { destruct (reachable_consistent Hr) as [[Hfl _] | (q & Hfl & _ & Ho)];
      rewrite Hfl in Hp.
    - destruct i; discriminate Hp.
    - destruct i as [| i]; [| destruct i; discriminate Hp].
      injection Hp as <-. exact Ho. }
  split; [| split].
  - apply step_event. cbn [enabled]. now rewrite Hp.
  - cbn [react]. rewrite Hp. cbn [ui].
    rewrite capturedImages_resume, Ho. reflexivity.
  - cbn [react]. rewrite Hp. cbn [ui].
    rewrite capturedImages_resume, Ho, length_firstn. reflexivity.
Qed.

Lemma capture_history_keeps_ten_newest_first_witness :
  reachable fullAndDetecting /\
  map CapturedImage.id (capturedImages (ui fullAndDetecting))
  = [10; 9; 8; 7; 6; 5; 4; 3; 2; 1]%N /\
  exists p,
    nth_error (inflight fullAndDetecting) 0 = Some p /\
    let w' := react fullAndDetecting (Settle 0 11 (Fulfilled None)) in
    step fullAndDetecting (Settle 0 11 (Fulfilled None)) w' /\
    capturedImages (ui w')
    = newCapture p 11 None
      :: firstn 9 (capturedImages (ui fullAndDetecting)) /\
    List.length (capturedImages (ui w'))
    = Nat.min 10 (S (List.length (capturedImages (ui fullAndDetecting)))).
Proof.
  split; [exact reachable_fullAndDetecting | split].
  - vm_compute. reflexivity.
  - eexists. split.
    + vm_compute. reflexivity.
    + apply (proj2 (@capture_history_keeps_ten_newest_first
                      fullAndDetecting reachable_fullAndDetecting)).
      vm_compute. reflexivity.
Defined.

(* ===================================================================== *)
(** * The prompt list *)
(* ===================================================================== *)

Lemma removePrompt_absent : forall i ps,
  ~ In i (map PromptInput.id ps) -> PromptInput.removePrompt i ps = ps.
Proof.
  intros i ps. unfold PromptInput.removePrompt.
  induction ps as [| p ps IH]; simpl; intro H.
  - reflexivity.
  - destruct (N.eqb_spec (PromptInput.id p) i) as [E | _].
    + elim H. now left.
    + simpl. f_equal. apply IH. intro Hin. apply H. now right.
Qed.

Lemma removePrompt_app : forall i ps qs,
  PromptInput.removePrompt i (ps ++ qs)
  = PromptInput.removePrompt i ps ++ PromptInput.removePrompt i qs.
Proof. intros. unfold PromptInput.removePrompt. apply filter_app. Qed.

Lemma updatePrompt_app : forall i u ps qs,
  PromptInput.updatePrompt i u (ps ++ qs)
  = PromptInput.updatePrompt i u ps ++ PromptInput.updatePrompt i u qs.
Proof. intros. unfold PromptInput.updatePrompt. apply map_app. Qed.

Lemma updatePrompt_absent : forall i u ps,
  ~ In i (map PromptInput.id ps) -> PromptInput.updatePrompt i u ps = ps.
Proof.
  intros i u ps. unfold PromptInput.updatePrompt.
  induction ps as [| p ps IH]; simpl; intro H.
  - reflexivity.
  - destruct (N.eqb_spec (PromptInput.id p) i) as [E | _].
    + elim H. now left.
    + f_equal. apply IH. intro Hin. apply H. now right.
Qed.

(** X1. Removing the prompt that was just added gives the list back,
    provided its id (the clock value) is not the id of an older
    prompt. *)
Theorem removePrompt_undoes_addPrompt :
  forall now ps,
    ~ In now (map PromptInput.id ps) ->
    PromptInput.removePrompt now (PromptInput.addPrompt now ps) = ps.
Proof.
  intros now ps H. unfold PromptInput.addPrompt.
  rewrite removePrompt_app, (removePrompt_absent _ _ H).
  unfold PromptInput.removePrompt. simpl. rewrite N.eqb_refl. simpl.
  apply app_nil_r.
Qed.

Lemma removePrompt_undoes_addPrompt_witness :
  ~ In 1700000000000%N (map PromptInput.id (prompts initialState)) /\
  PromptInput.removePrompt 1700000000000
    (PromptInput.addPrompt 1700000000000 (prompts initialState))
  = prompts initialState.
Proof.
  assert (H : ~ In 1700000000000%N
                (map PromptInput.id (prompts initialState))).
  { simpl. intros [E | [E | []]]; discriminate E. }
  split; [exact H |].
  apply (@removePrompt_undoes_addPrompt 1700000000000%N
           (prompts initialState) H).
Defined.

(** X2. Two prompts added at the same clock value carry the same id:
    removing one removes both, and editing the text of one edits
    both. *)
Theorem prompts_added_together_share_their_id :
  forall now ps v,
    ~ In now (map PromptInput.id ps) ->
    let twice := PromptInput.addPrompt now (PromptInput.addPrompt now ps) in
    List.length twice = S (S (List.length ps)) /\
    PromptInput.removePrompt now twice = ps /\
    exists p q,
      PromptInput.updatePrompt now (PromptInput.SetText v) twice
      = ps ++ [p; q] /\
      PromptInput.text p = v /\ PromptInput.text q = v.
Proof.
  intros now ps v H twice. subst twice. unfold PromptInput.addPrompt.
  split; [| split].
  - rewrite !length_app. simpl. lia.
  - rewrite !removePrompt_app, (removePrompt_absent _ _ H).
    unfold PromptInput.removePrompt. simpl. rewrite N.eqb_refl. simpl.
    now rewrite !app_nil_r.
  - rewrite !updatePrompt_app, (updatePrompt_absent _ _ _ H).
    unfold PromptInput.updatePrompt. simpl. rewrite N.eqb_refl.
    eexists. eexists. rewrite <- app_assoc. simpl.
    split; [reflexivity | split; reflexivity].
Qed.

Lemma prompts_added_together_share_their_id_witness :
  ~ In 1700000000000%N (map PromptInput.id (prompts initialState)) /\
  PromptInput.removePrompt 1700000000000
    (PromptInput.addPrompt 1700000000000
       (PromptInput.addPrompt 1700000000000 (prompts initialState)))
  = prompts initialState.
Proof.
  assert (H : ~ In 1700000000000%N
                (map PromptInput.id (prompts initialState))).
  { simpl. intros [E | [E | []]]; discriminate E. }
  split; [exact H |].
  apply (@prompts_added_together_share_their_id 1700000000000%N
           (prompts initialState) [] H).
Defined.

(** X3. [updatePrompt] keeps the length, the ids and the order of the
    list; prompts with another id stay as they are, a prompt with the
    id gets the new text (or colour) and keeps its other fields, and an
    id that no prompt has changes nothing. *)
Theorem updatePrompt_changes_only_its_prompt :
  forall i u ps,
    map PromptInput.id (PromptInput.updatePrompt i u ps)
    = map PromptInput.id ps /\
    (forall k p,
        nth_error ps k = Some p -> PromptInput.id p <> i ->
        nth_error (PromptInput.updatePrompt i u ps) k = Some p) /\
    (forall k p,
        nth_error ps k = Some p -> PromptInput.id p = i ->
        exists p',
          nth_error (PromptInput.updatePrompt i u ps) k = Some p' /\
          match u with
          | PromptInput.SetText v =>
              PromptInput.text p' = v /\
              PromptInput.color p' = PromptInput.color p
          | PromptInput.SetColor v =>
              PromptInput.color p' = v /\
              PromptInput.text p' = PromptInput.text p
          end) /\
    (~ In i (map PromptInput.id ps) -> PromptInput.updatePrompt i u ps = ps).
Proof.
  intros i u ps. split; [| split; [| split]].
  - unfold PromptInput.updatePrompt. rewrite map_map. apply map_ext.
    intro p. destruct (N.eqb (PromptInput.id p) i); [| reflexivity].
    now destruct u.
  - intros k p Hk Hne. unfold PromptInput.updatePrompt.
    rewrite nth_error_map, Hk. simpl.
    destruct (N.eqb_spec (PromptInput.id p) i); [contradiction | reflexivity].
  - intros k p Hk He. unfold PromptInput.updatePrompt.
    rewrite nth_error_map, Hk. simpl.
    apply N.eqb_eq in He. rewrite He.
    eexists. split; [reflexivity |]. destruct u; split; reflexivity.
  - apply updatePrompt_absent.
Qed.

Lemma updatePrompt_changes_only_its_prompt_witness :
  ~ In 9%N (map PromptInput.id (prompts initialState)) /\
  PromptInput.updatePrompt 9 (PromptInput.SetText (lit "cars"))
    (prompts initialState)
  = prompts initialState.
Proof.
  assert (H : ~ In 9%N (map PromptInput.id (prompts initialState))).
  { simpl. intros [E | [E | []]]; discriminate E. }
  split; [exact H |].
  apply (proj2 (proj2 (proj2
           (@updatePrompt_changes_only_its_prompt 9%N
              (PromptInput.SetText (lit "cars")) (prompts initialState))))).
  exact H.
Defined.

(** X4. [addPrompt] appends one prompt and leaves the others in place.
    The new prompt has the clock value as id, an empty text and one of
    the six default colours, a ['#RRGGBB'] string, chosen by the length
    of the list modulo six. *)
Theorem addPrompt_appends_blank_prompt_with_default_color :
  forall now ps,
    exists p,
      PromptInput.addPrompt now ps = ps ++ [p] /\
      PromptInput.id p = now /\
      PromptInput.text p = [] /\
      nth_error PromptInput.DEFAULT_COLORS (List.length ps mod 6)
      = Some (PromptInput.color p) /\
      isHexColor (PromptInput.color p) = true.
Proof.
  intros now ps. eexists. split; [reflexivity |].
  split; [reflexivity | split; [reflexivity |]].
  cbn [PromptInput.color].
  change (List.length PromptInput.DEFAULT_COLORS) with 6.
  assert (Hlt : List.length ps mod 6 < 6) by (apply Nat.mod_upper_bound; lia).
  destruct (List.length ps mod 6) as [| [| [| [| [| [| k]]]]]];
    try lia; split; reflexivity.
Qed.

(* ===================================================================== *)
(** * The handlers of [Home] *)
(* ===================================================================== *)

Lemma nonBlankPrompts_app : forall ps qs,
  nonBlankPrompts (ps ++ qs) = nonBlankPrompts ps ++ nonBlankPrompts qs.
Proof.
  intros ps qs. unfold nonBlankPrompts. now rewrite filter_app, map_app.
Qed.

(** X5. A prompt fresh from "+ Add prompt" has no text yet.  While it
    is there [handleImageCapture] sends nothing and shows its message,
    whereas [handleConfirmDetection] would send the same prompts as
    before the prompt was added. *)
Theorem fresh_prompt_blocks_capture_and_is_dropped_on_confirm :
  forall s now,
    let s' := setPrompts (PromptInput.addPrompt now (prompts s)) s in
    (forall image bounds,
        handleImageCapture image bounds s'
        = (setError (Some (lit "Please add at least one prompt with text."))
             s', None)) /\
    nonBlankPrompts (prompts s') = nonBlankPrompts (prompts s) /\
    (forall s1 p,
        handleConfirmDetection s' = (s1, Some p) ->
        Api.prompts (request p) = nonBlankPrompts (prompts s)).
Proof.
  intros s now s'.
  assert (Hsame : nonBlankPrompts (prompts s') = nonBlankPrompts (prompts s)).
  { subst s'. cbn [prompts setPrompts]. unfold PromptInput.addPrompt.
    rewrite nonBlankPrompts_app. apply app_nil_r. }
  split; [| split].
  - intros image bounds. unfold handleImageCapture.
    replace (existsb
               (fun p => negb (truthy (trim (PromptInput.text p))))
               (prompts s')) with true.
    + now rewrite !orb_true_r.
    + subst s'. cbn [prompts setPrompts]. unfold PromptInput.addPrompt.
      rewrite existsb_app. simpl. now rewrite orb_true_r.
  - exact Hsame.
  - intros s1 p H. rewrite <- Hsame. revert H. unfold handleConfirmDetection.
    destruct (previewImage s') as [image |]; [| discriminate].
    destruct (previewBounds s') as [bounds |]; [| discriminate].
    destruct (truthy image); [| discriminate].
    intro H. injection H as _ <-. cbn. apply apiPrompts_nonBlank.
Qed.

Lemma fresh_prompt_blocks_capture_and_is_dropped_on_confirm_witness :
  let s := handleDetect (Captured sampleImage sampleBounds)
             (handleMapReady initialState) in
  let s' := setPrompts (PromptInput.addPrompt 1700000000000 (prompts s)) s in
  snd (handleImageCapture sampleImage sampleBounds s') = None /\
  exists s1 p,
    handleConfirmDetection s' = (s1, Some p) /\
    Api.prompts (request p) = nonBlankPrompts (prompts s) /\
    List.length (Api.prompts (request p)) = 2 /\
    List.length (prompts s') = 3.
Proof.
  intros s s'.
  destruct (@fresh_prompt_blocks_capture_and_is_dropped_on_confirm s
              1700000000000%N) as (Hcap & _ & Hconf).
  split.
  - fold s' in Hcap. now rewrite Hcap.
  - eexists. eexists. split; [reflexivity |].
    split; [apply (Hconf _ _ eq_refl) | split; reflexivity].
Defined.

Lemma existsb_blank_false : forall ps : list PromptInput.Prompt,
  (forall p, In p ps -> blank (PromptInput.text p) = false) ->
  existsb (fun p => negb (truthy (trim (PromptInput.text p)))) ps = false.
Proof.
  induction ps as [| p ps IH]; simpl; intro H.
  - reflexivity.
  - rewrite truthy_trim, (H p (or_introl eq_refl)). simpl.
    apply IH. intros q Hq. apply H. now right.
Qed.

(** X6. [handleImageCapture] does not look at [isLoading]: the request
    it sends, if any, is the same whether a detection is running or
    not.  With a map, at least one prompt and no blank prompt it always
    sends one, carrying all the prompts. *)
Theorem handleImageCapture_ignores_isLoading :
  forall image bounds s,
    (forall b,
        snd (handleImageCapture image bounds (setIsLoading b s))
        = snd (handleImageCapture image bounds s)) /\
    (mapRef s = true -> prompts s <> [] ->
     (forall p, In p (prompts s) -> blank (PromptInput.text p) = false) ->
     exists s' p,
       handleImageCapture image bounds s = (s', Some p) /\
       isLoading s' = true /\ error s' = None /\
       request p
       = {| Api.image := image;
            Api.prompts := map toApiPrompt (prompts s);
            Api.bounds := bounds;
            Api.zoom := zoom s;
            Api.confidence := confidence s |}).
Proof.
  intros image bounds s. split.
  - intro b. unfold handleImageCapture. cbn [mapRef prompts setIsLoading].
    destruct (negb (mapRef s) || Nat.eqb (List.length (prompts s)) 0
              || existsb
                   (fun p => negb (truthy (trim (PromptInput.text p))))
                   (prompts s)); reflexivity.
  - intros Hmap Hne Htext. unfold handleImageCapture.
    assert (Hlen : Nat.eqb (List.length (prompts s)) 0 = false)
      by (destruct (prompts s); [now elim Hne | reflexivity]).
    rewrite Hmap, Hlen, (existsb_blank_false _ Htext).
    cbn [negb orb].
    eexists. eexists. split; [reflexivity |].
    split; [reflexivity | split; [reflexivity |]].
    cbn [request]. unfold Api.detectObjects. f_equal.
    unfold apiPrompts. f_equal.
    apply filter_all. exact (existsb_blank_false _ Htext).
Qed.

Lemma handleImageCapture_ignores_isLoading_witness :
  (mapRef (ui detecting) = true /\ prompts (ui detecting) <> [] /\
   isLoading (ui detecting) = true /\
   (forall p, In p (prompts (ui detecting)) ->
              blank (PromptInput.text p) = false)) /\
  exists s' p,
    handleImageCapture sampleImage sampleBounds (ui detecting)
    = (s', Some p) /\
    isLoading s' = true /\ error s' = None /\
    request p
    = {| Api.image := sampleImage;
         Api.prompts := map toApiPrompt (prompts (ui detecting));
         Api.bounds := sampleBounds;
         Api.zoom := zoom (ui detecting);
         Api.confidence := confidence (ui detecting) |}.
Proof.
  assert (Htext : forall p, In p (prompts (ui detecting)) ->
                            blank (PromptInput.text p) = false).
  { intros p [<- | [<- | []]]; reflexivity. }
  split.
  - repeat split; try reflexivity; [discriminate | exact Htext].
  - apply (proj2 (@handleImageCapture_ignores_isLoading sampleImage
                    sampleBounds (ui detecting))).
    + reflexivity.
    + discriminate.
    + exact Htext.
Defined.

(** X7. A request confirmed right after a capture carries exactly the
    captured image and the bounds read with it, and the zoom and the
    confidence of the page; the preview closes, the page is loading and
    the old error is gone. *)
Theorem confirmed_request_carries_the_captured_view :
  forall s image bounds,
    mapRef s = true -> truthy image = true ->
    let s1 := handleDetect (Captured image bounds) s in
    modalShown s1 = true /\
    exists s2 p,
      handleConfirmDetection s1 = (s2, Some p) /\
      request p
      = {| Api.image := image;
           Api.prompts := nonBlankPrompts (prompts s);
           Api.bounds := bounds;
           Api.zoom := zoom s;
           Api.confidence := confidence s |} /\
      showPreview s2 = false /\ isLoading s2 = true /\ error s2 = None.
Proof.
  intros s image bounds Hmap Himg s1. subst s1.
  unfold handleDetect. rewrite Hmap. cbn [negb]. split.
  - unfold modalShown. cbn. exact Himg.
  - unfold handleConfirmDetection. cbn [previewImage previewBounds
      setShowPreview setPreviewBounds setPreviewImage].
    rewrite Himg. eexists. eexists. split; [reflexivity |].
    cbn [request]. unfold Api.detectObjects. rewrite apiPrompts_nonBlank.
    repeat split; reflexivity.
Qed.

Lemma confirmed_request_carries_the_captured_view_witness :
  let s := handleMapReady initialState in
  (mapRef s = true /\ truthy sampleImage = true) /\
  exists s2 p,
    handleConfirmDetection (handleDetect (Captured sampleImage sampleBounds) s)
    = (s2, Some p) /\
    request p
    = {| Api.image := sampleImage;
         Api.prompts := nonBlankPrompts (prompts s);
         Api.bounds := sampleBounds;
         Api.zoom := zoom s;
         Api.confidence := confidence s |} /\
    showPreview s2 = false /\ isLoading s2 = true /\ error s2 = None.
Proof.
  intro s. split; [split; reflexivity |].
  apply (@confirmed_request_carries_the_captured_view s sampleImage
           sampleBounds); reflexivity.
Defined.


(* ===================================================================== *)
(** * Saving the image *)
(* ===================================================================== *)

Lemma str_eqb_eq : forall s t, str_eqb s t = true <-> s = t.
Proof.
  induction s as [| c s IH]; intros [| d t]; simpl;
    try (split; [discriminate | discriminate]); [tauto |].
  rewrite andb_true_iff, N.eqb_eq, IH. split.
  - intros [-> ->]. reflexivity.
  - intro H. injection H as -> ->. now split.
Qed.

Lemma find_skips : forall (f : CapturedImage.t -> bool) front l,
  (forall c, In c front -> f c = false) -> find f (front ++ l) = find f l.
Proof.
  intros f front l. induction front as [| c front IH]; simpl; intro H.
  - reflexivity.
  - rewrite (H c (or_introl eq_refl)). apply IH.
    intros c' Hc'. apply H. now right.
Qed.

Lemma find_none : forall (f : CapturedImage.t -> bool) l,
  (forall c, In c l -> f c = false) -> find f l = None.
Proof.
  intros f l H. rewrite <- (app_nil_r l). now rewrite find_skips.
Qed.

(** X8. "Save Image" on a preview with no results to draw (no current
    results and no capture of this image with results) or without
    bounds downloads the captured image itself, untouched: no canvas is
    made. *)
Theorem save_without_results_downloads_the_capture :
  forall decode hasContext s image,
    previewImage s = Some image -> truthy image = true ->
    previewBounds s = None \/
    (detectionResults s = None /\
     forall c, In c (capturedImages s) ->
               CapturedImage.image c = image ->
               CapturedImage.results c = None) ->
    handleSaveImage decode hasContext s = Normal (PlainDownload image).
Proof.
  intros decode hasContext s image Himg Htruthy H.
  unfold handleSaveImage. rewrite Himg, Htruthy. cbn [negb].
  destruct H as [Hb | [Hres Hhist]].
  - rewrite Hb.
    now destruct (find _ (capturedImages s)) as [c |];
      [destruct (CapturedImage.results c) |];
      try destruct (detectionResults s).
  - rewrite Hres.
    destruct (find (fun c => str_eqb (CapturedImage.image c) image)
                   (capturedImages s)) as [c |] eqn:F; [| reflexivity].
    apply find_some in F. destruct F as [Hin Heq].
    apply str_eqb_eq in Heq. now rewrite (Hhist c Hin Heq).
Qed.

Lemma save_without_results_downloads_the_capture_witness :
  let s := handleDetect (Captured sampleImage sampleBounds)
             (handleMapReady initialState) in
  (previewImage s = Some sampleImage /\ truthy sampleImage = true /\
   detectionResults s = None /\ capturedImages s = []) /\
  handleSaveImage (fun _ => Some (512%N, 512%N)) true s
  = Normal (PlainDownload sampleImage).
Proof.
  intro s. split; [repeat split |].
  apply (@save_without_results_downloads_the_capture
           (fun _ => Some (512%N, 512%N)) true s sampleImage);
    [reflexivity | reflexivity |].
  right. split; [reflexivity |]. intros c [].
Defined.


Lemma drawPolygon_without_rings : forall toPixel log,
  drawPolygon toPixel [] log = Throw TypeError.
Proof. reflexivity. Qed.







(** X11. A failed detection ends the loading state and shows a message
    that is never empty: the service's detail if it has one, else the
    error's own message, else ['Detection failed'].  The results on
    display, the capture history and the preview stay as they were. *)
Theorem failed_detection_reports_and_keeps_everything_else :
  forall p now err s,
    let s' := resume p now (Rejected err) s in
    error s' = Some (errorText err) /\
    truthy (errorText err) = true /\
    (truthyOpt (detail err) = true -> Some (errorText err) = detail err) /\
    (truthyOpt (detail err) = false -> truthyOpt (message err) = true ->
     Some (errorText err) = message err) /\
    (truthyOpt (detail err) = false -> truthyOpt (message err) = false ->
     errorText err = lit "Detection failed") /\
    isLoading s' = false /\
    detectionResults s' = detectionResults s /\
    capturedImages s' = capturedImages s /\
    previewImage s' = previewImage s /\
    previewBounds s' = previewBounds s /\
    showPreview s' = showPreview s.
Proof.
  intros p now err s s'. subst s'.
  split; [reflexivity |].
  split; [| split; [| split; [| split; [| repeat split]]]];
    unfold errorText, orElse;
    destruct (detail err) as [[| c d] |], (message err) as [[| c' m] |];
    simpl; try reflexivity; try discriminate.
Qed.

Lemma failed_detection_reports_and_keeps_everything_else_witness :
  let err := {| detail := Some []; message := Some (lit "Network Error") |} in
  (truthyOpt (detail err) = false /\ truthyOpt (message err) = true) /\
  Some (errorText err) = message err.
Proof.
  intro err. split; [split; reflexivity |].
  pose proof (@failed_detection_reports_and_keeps_everything_else
                {| request := Api.detectObjects sampleImage [] sampleBounds
                                (ofZ 17) (ofZ 1);
                   origin := FromConfirm; closure_prompts := [] |}
                0%N err initialState) as (_ & _ & _ & H & _).
  apply H; reflexivity.
Defined.

(* ===================================================================== *)
(** * More on the transition system *)
(* ===================================================================== *)

(** X12. A request in flight cannot be cancelled or doubled: while the
    page is loading every action open to the user leaves the request
    and the loading flag as they are.  Its answer, success or failure,
    can always be delivered; it empties the queue, ends the loading
    state and enables "Detect in View" again. *)
Theorem request_in_flight_runs_to_its_answer :
  forall w, reachable w -> isLoading (ui w) = true ->
    (forall e,
        enabled w e = true ->
        (forall i now r, e <> Settle i now r) ->
        inflight (react w e) = inflight w /\
        isLoading (ui (react w e)) = true) /\
    (forall now r,
        enabled w (Settle 0 now r) = true /\
        inflight (react w (Settle 0 now r)) = [] /\
        isLoading (ui (react w (Settle 0 now r))) = false /\
        forall c, enabled (react w (Settle 0 now r)) (ClickDetect c) = true).
Proof.
  intros w Hr Hl. split.
  - intros e Hen Hns. destruct (quiet e) eqn:Hq.
    + destruct (react_quiet w e Hq) as (Hl' & Hf & _).
      split; [exact Hf | congruence].
    + destruct e; try discriminate Hq.
      * cbn [enabled] in Hen. rewrite Hl in Hen.
        rewrite andb_false_r in Hen. discriminate Hen.
      * now elim (Hns i now r).
  - intros now r.
    destruct (reachable_consistent Hr) as [[_ Hl'] | (p & Hfl & _)];
      [congruence |].
    cbn [enabled react]. rewrite Hfl. cbn [nth_error ui inflight removeAt].
    rewrite isLoading_resume. repeat split.
Qed.

Lemma request_in_flight_runs_to_its_answer_witness :
  (reachable detecting /\ isLoading (ui detecting) = true) /\
  forall now r,
    enabled detecting (Settle 0 now r) = true /\
    inflight (react detecting (Settle 0 now r)) = [] /\
    isLoading (ui (react detecting (Settle 0 now r))) = false /\
    forall c,
      enabled (react detecting (Settle 0 now r)) (ClickDetect c) = true.
Proof.
  split; [split; [exact reachable_detecting | reflexivity] |].
  apply (proj2 (@request_in_flight_runs_to_its_answer detecting
                  reachable_detecting eq_refl)).
Defined.

Lemma pairedWithin_incl : forall pairs pairs' w,
  incl pairs pairs' -> pairedWithin pairs w -> pairedWithin pairs' w.
Proof.
  intros pairs pairs' w Hincl (H1 & H2 & H3 & H4).
  repeat split; try apply H4; intros; apply Hincl; auto.
Qed.

Lemma firstn_In : forall A (l : list A) n a, In a (firstn n l) -> In a l.
Proof.
  intros A l. induction l as [| b l IH]; intros [| n] a H; simpl in *;
    try contradiction.
  destruct H as [-> | H]; [now left | right; eauto].
Qed.

Lemma removeAt_In : forall A (l : list A) i a, In a (removeAt i l) -> In a l.
Proof.
  intros A l. induction l as [| b l IH]; intros [| i] a H; simpl in *;
    try contradiction.
  - now right.
  - destruct H as [-> | H]; [now left | right; eauto].
Qed.

Lemma pairedWithin_react : forall pairs w e,
  pairedWithin pairs w -> pairedWithin (pairs ++ capturesOf [e]) (react w e).
Proof.
  intros pairs [s fl] e (Hh & Hf & Hp & Hn).
  cbn [ui inflight] in *.
  assert (Hkeep : pairedWithin (pairs ++ capturesOf [e])
                    {| ui := s; inflight := fl |}).
  { apply (@pairedWithin_incl pairs); [apply incl_appl, incl_refl |].
    repeat split; try apply Hn; assumption. }
  destruct e; cbn [react ui inflight]; try exact Hkeep.
  - (* Detect in View *)
    unfold handleDetect. destruct (negb (mapRef s)); [exact Hkeep |].
    destruct r as [image bounds | msg]; [| exact Hkeep].
    repeat split; cbn; try discriminate.
    + intros c Hc. apply in_or_app. left. auto.
    + intros p Hin. apply in_or_app. left. auto.
    + intros i b Hi Hb. injection Hi as <-. injection Hb as <-.
      apply in_or_app. right. now left.
  - (* Run Detection *)
    unfold handleConfirmDetection.
    destruct (previewImage s) as [image |] eqn:Ei; [| exact Hkeep].
    destruct (previewBounds s) as [bounds |] eqn:Eb; [| exact Hkeep].
    destruct (truthy image); [| exact Hkeep].
    cbn [app capturesOf flat_map]. rewrite app_nil_r.
    repeat split; cbn; try congruence.
    + exact Hh.
    + intros p Hin. apply in_app_or in Hin. destruct Hin as [Hin | [<- | []]].
      * now apply Hf.
      * cbn. now apply Hp.
    + intros i b Hi Hb. apply Hp; congruence.
  - (* Cancel *)
    cbn [app capturesOf flat_map]. rewrite app_nil_r.
    repeat split; cbn; try discriminate; assumption.
  - (* a capture of the history *)
    destruct (nth_error (capturedImages s) i) as [c |] eqn:E; [| exact Hkeep].
    cbn [app capturesOf flat_map ui inflight]. rewrite app_nil_r.
    apply nth_error_In in E. unfold selectCapture.
    destruct (CapturedImage.results c); repeat split; cbn;
      try discriminate; try assumption;
      intros i' b' Hi Hb; injection Hi as <-; injection Hb as <-;
      now apply Hh.
  - (* a response *)
    destruct (nth_error fl i) as [p |] eqn:E; [| exact Hkeep].
    cbn [app capturesOf flat_map ui inflight]. rewrite app_nil_r.
    apply nth_error_In in E.
    assert (Hpre : previewImage (resume p now r s) = previewImage s /\
                   previewBounds (resume p now r s) = previewBounds s).
    { unfold resume. destruct r; [destruct (origin p) |]; split; reflexivity. }
    destruct Hpre as [Hi Hb]. repeat split; cbn [ui inflight].
    + intros c Hc. rewrite capturedImages_resume in Hc.
      destruct r; [destruct (origin p) |]; auto.
      apply firstn_In in Hc. destruct Hc as [<- | Hc]; [| auto].
      cbn. now apply Hf.
    + intros q Hq. apply Hf. now apply removeAt_In in Hq.
    + intros i' b'. rewrite Hi, Hb. apply Hp.
    + rewrite Hi, Hb. apply Hn.
    + rewrite Hi, Hb. apply Hn.
Qed.

Lemma run_pairedWithin : forall es w w' pairs,
  pairedWithin pairs w -> run es w = Some w' ->
  pairedWithin (pairs ++ capturesOf es) w'.
Proof.
  induction es as [| e es IH]; intros w w' pairs Hp H; simpl in H.
  - injection H as <-. cbn. now rewrite app_nil_r.
  - destruct (enabled w e); [| discriminate H].
    pose proof (IH _ _ _ (pairedWithin_react e Hp) H) as Hw'.
    cbn [capturesOf flat_map app] in Hw'. rewrite app_nil_r in Hw'.
    cbn [capturesOf flat_map]. now rewrite <- app_assoc in Hw'.
Qed.

(** X13. An image never parts from the bounds it was captured with.
    After any run of the application, the preview, every request in
    flight and every entry of the history hold an image together with
    the bounds that one "Detect in View" capture of the run read with
    that image; and the preview has bounds exactly when it has an
    image. *)
Theorem images_stay_with_their_bounds :
  forall es w,
    run es initialWorld = Some w ->
    (forall c, In c (capturedImages (ui w)) ->
               In (CapturedImage.image c, CapturedImage.bounds c)
                  (capturesOf es)) /\
    (forall p, In p (inflight w) ->
               In (Api.image (request p), Api.bounds (request p))
                  (capturesOf es)) /\
    (forall image bounds,
        previewImage (ui w) = Some image ->
        previewBounds (ui w) = Some bounds ->
        In (image, bounds) (capturesOf es)) /\
    (previewImage (ui w) = None <-> previewBounds (ui w) = None).
Proof.
  intros es w H.
  apply (@run_pairedWithin es initialWorld w [] ); [| exact H].
  repeat split; cbn; try contradiction; try discriminate; reflexivity.
Qed.

Lemma images_stay_with_their_bounds_witness :
  run tenCaptures initialWorld = Some fullAndDetecting /\
  List.length (capturedImages (ui fullAndDetecting)) = 10 /\
  forall c, In c (capturedImages (ui fullAndDetecting)) ->
            In (CapturedImage.image c, CapturedImage.bounds c)
               (capturesOf tenCaptures).
Proof.
  assert (H : run tenCaptures initialWorld = Some fullAndDetecting)
    by (vm_compute; reflexivity).
  split; [exact H | split; [vm_compute; reflexivity |]].
  apply (proj1 (@images_stay_with_their_bounds tenCaptures
                  fullAndDetecting H)).
Defined.

(** X14. Editing the prompt list while a request is in flight changes
    neither the request nor what its answer records: the history and
    the results after the answer are those the answer would have given
    without the edit, and the edited list is kept. *)
Theorem prompt_edits_do_not_reach_a_request_in_flight :
  forall w e now r,
    isPromptEvent e = true ->
    let w1 := react (react w e) (Settle 0 now r) in
    inflight (react w e) = inflight w /\
    capturedImages (ui w1) = capturedImages (ui (react w (Settle 0 now r))) /\
    detectionResults (ui w1)
    = detectionResults (ui (react w (Settle 0 now r))) /\
    prompts (ui w1) = prompts (ui (react w e)).
Proof.
  intros [s fl] e now r He w1. subst w1.
  destruct e; try discriminate He; cbn [react ui inflight];
    (destruct (nth_error fl 0) as [p |]; cbn [ui inflight];
     [ unfold resume; destruct r; [destruct (origin p) |]
     | ]; repeat split).
Qed.

Lemma prompt_edits_do_not_reach_a_request_in_flight_witness :
  let e := EditPrompt 1 (PromptInput.SetText (lit "roads")) in
  let r := Fulfilled (Some {| Api.features := [triangle None] |}) in
  isPromptEvent e = true /\
  map CapturedImage.prompts
      (capturedImages (ui (react (react detecting e) (Settle 0 5 r))))
  = [[lit "trees"; lit "buildings"]] /\
  map PromptInput.text
      (prompts (ui (react (react detecting e) (Settle 0 5 r))))
  = [lit "roads"; lit "buildings"].
Proof.
  intros e r. split; [reflexivity |].
  destruct (@prompt_edits_do_not_reach_a_request_in_flight detecting e
              5%N r eq_refl) as (_ & Hh & _ & Hp).
  rewrite Hh, Hp. split; reflexivity.
Defined.


(* ===================================================================== *)
(** * The detection controls *)
(* ===================================================================== *)

Lemma this_Q2Qc : forall q : Q, (this (Q2Qc q) == q)%Q.
Proof. intro q. apply Qred_correct. Qed.

Lemma this_Qcmult : forall a b : Qc, (this (a * b)%Qc == this a * this b)%Q.
Proof. intros a b. apply Qred_correct. Qed.

Lemma this_Qcplus : forall a b : Qc, (this (a + b)%Qc == this a + this b)%Q.
Proof. intros a b. apply Qred_correct. Qed.

Lemma this_Qcopp : forall a : Qc, (this (- a)%Qc == - this a)%Q.
Proof. intros a. apply Qred_correct. Qed.

Lemma this_Qcminus : forall a b : Qc, (this (a - b)%Qc == this a - this b)%Q.
Proof.
  intros a b. unfold Qcminus. rewrite this_Qcplus, this_Qcopp. reflexivity.
Qed.







(* ===================================================================== *)
(** * Where [geoToPixel] puts a point *)
(* ===================================================================== *)






(* ===================================================================== *)
(** * The layout of the legend *)
(* ===================================================================== *)

Lemma ofZ_add : forall a b : Z, (ofZ a + ofZ b)%num = ofZ (a + b).
Proof.
  intros a b. unfold ofZ. rewrite add_Fin. f_equal. apply Qc_is_canon.
  rewrite this_Qcplus, !this_Q2Qc, inject_Z_plus. reflexivity.
Qed.

Lemma ofZ_sub : forall a b : Z, (ofZ a - ofZ b)%num = ofZ (a - b).
Proof.
  intros a b. unfold ofZ. rewrite sub_Fin. f_equal. apply Qc_is_canon.
  rewrite this_Qcminus, !this_Q2Qc. unfold Z.sub, Qminus.
  rewrite inject_Z_plus, inject_Z_opp. reflexivity.
Qed.

Lemma ofZ_mul : forall a b : Z, (ofZ a * ofZ b)%num = ofZ (a * b).
Proof.
  intros a b. unfold ofZ. rewrite mul_Fin. f_equal. apply Qc_is_canon.
  rewrite this_Qcmult, !this_Q2Qc, inject_Z_mult. reflexivity.
Qed.

Lemma legendRow_ofZ : forall i, legendRow i = ofZ (20 + Z.of_nat i * 25).
Proof.
  intro i. unfold legendRow, ofNat. now rewrite ofZ_mul, ofZ_add.
Qed.

Lemma legend_rows_calls : forall (prompts : list PromptInput.Prompt) (i : nat),
  exists ops,
    emits
      (forEach_from
         (fun (prompt : PromptInput.Prompt) i =>
            let y := (ofZ 20 + ofNat i * ofZ 25)%num in
            call (set_fillStyle (PromptInput.color prompt)) ;;
            call (fillRect (ofZ 10) y (ofZ 20) (ofZ 15)) ;;
            call (set_strokeStyle (lit "#000")) ;;
            call (strokeRect (ofZ 10) y (ofZ 20) (ofZ 15)) ;;
            call (set_fillStyle (lit "#fff")) ;;
            call (fillText (PromptInput.text prompt) (ofZ 10 + ofZ 28)
                    (y + ofZ 12))%num) prompts i) tt ops /\
    forall k p,
      nth_error prompts k = Some p ->
      In (fillRect (ofZ 10) (legendRow (i + k)) (ofZ 20) (ofZ 15)) ops /\
      In (strokeRect (ofZ 10) (legendRow (i + k)) (ofZ 20) (ofZ 15)) ops /\
      In (fillText (PromptInput.text p) (ofZ 10 + ofZ 28)%num
            (legendRow (i + k) + ofZ 12)%num) ops.
Proof.
  intros prompts. induction prompts as [| q qs IH]; intros i.
  - exists []. split; [apply emits_ret |]. intros [| k] p H; discriminate H.
  - destruct (IH (S i)) as (ops & Hrun & Hin).
    eexists. split.
    + cbn [forEach_from]. cbv zeta.
      apply (emits_bind _ (a := tt)); [| exact Hrun].
      repeat apply emits_call_then. apply emits_call.
    + intros [| k] p H.
      * injection H as <-. rewrite Nat.add_0_r. unfold legendRow.
        cbn [app In]. repeat split; tauto.
      * destruct (Hin k p H) as (H1 & H2 & H3).
        rewrite <- plus_n_Sm. cbn [app]. cbn [plus] in *.
        repeat split; do 6 right; assumption.
Qed.

(** X17. Every row of the legend lies inside the legend's panel,
    however many prompts there are: the panel is the rectangle from
    [(5, 5)] of size [150] by [25 n + 10], row [k] has its swatch of
    [20] by [15] at [(10, 20 + 25 k)] with an outline of the same
    rectangle, and its text at [(38, 32 + 25 k)]. *)
Theorem legend_rows_lie_inside_the_panel :
  forall (ps : list PromptInput.Prompt) k p,
    nth_error ps k = Some p ->
    let n := Z.of_nat (List.length ps) in
    let row := (20 + Z.of_nat k * 25)%Z in
    exists canvas,
      drawLegend ps [] = Normal (tt, canvas) /\
      In (fillRect (ofZ 5) (ofZ 5) (ofZ 150) (ofZ (25 * n + 10))) canvas /\
      In (fillRect (ofZ 10) (ofZ row) (ofZ 20) (ofZ 15)) canvas /\
      In (strokeRect (ofZ 10) (ofZ row) (ofZ 20) (ofZ 15)) canvas /\
      In (fillText (PromptInput.text p) (ofZ 38) (ofZ (row + 12))) canvas /\
      (5 <= 10 /\ 10 + 20 <= 5 + 150)%Z /\
      (5 <= row /\ row + 15 <= 5 + (25 * n + 10))%Z /\
      (row + 12 <= 5 + (25 * n + 10))%Z.
Proof.
  intros ps k p Hk n row.
  destruct (legend_rows_calls ps 0) as (ops & Hrun & Hin).
  destruct (Hin k p Hk) as (H1 & H2 & H3). cbn [plus] in *.
  rewrite legendRow_ofZ in *. rewrite !ofZ_add in H3.
  eassert (Hleg : emits (drawLegend ps) tt _).
  { unfold drawLegend, forEach. cbv zeta.
    repeat apply emits_call_then. exact Hrun. }
  eexists. split; [exact (Hleg []) |].
  cbn [app]. unfold ofNat. rewrite !ofZ_sub, ofZ_mul, ofZ_add.
  assert (Hlt : k < List.length ps)
    by (apply nth_error_Some; congruence).
  subst n row. repeat split; try lia.
  - do 2 right. left. reflexivity.
  - do 3 right. exact H1.
  - do 3 right. exact H2.
  - do 3 right. exact H3.
Qed.

Lemma legend_rows_lie_inside_the_panel_witness :
  nth_error (prompts initialState) 1
  = Some {| PromptInput.id := 2; PromptInput.text := lit "buildings";
            PromptInput.color := lit "#FF69B4" |} /\
  exists canvas,
    drawLegend (prompts initialState) [] = Normal (tt, canvas) /\
    In (fillRect (ofZ 5) (ofZ 5) (ofZ 150) (ofZ 60)) canvas /\
    In (fillRect (ofZ 10) (ofZ 45) (ofZ 20) (ofZ 15)) canvas /\
    In (fillText (lit "buildings") (ofZ 38) (ofZ 57)) canvas.
Proof.
  split; [reflexivity |].
  destruct (@legend_rows_lie_inside_the_panel (prompts initialState) 1
              _ eq_refl) as (canvas & H0 & H1 & H2 & _ & H3 & _).
  exists canvas. repeat split; assumption.
Defined.

(* ===================================================================== *)
(** * Map errors *)
(* ===================================================================== *)

Lemma startsWith_spec : forall prefix s,
  MapView.startsWith s prefix = true <-> exists rest, s = prefix ++ rest.
Proof.
  induction prefix as [| d prefix IH]; intros s.
  - destruct s; simpl; (split; [intros _; eexists; reflexivity | reflexivity]).
  - destruct s as [| c s]; simpl.
    + split; [discriminate | intros [rest H]; discriminate H].
    + rewrite andb_true_iff, N.eqb_eq, IH. split.
      * intros [-> [rest ->]]. now exists rest.
      * intros [rest H]. injection H as -> ->. split; [reflexivity |].
        now exists rest.
Qed.

Lemma includes_spec : forall s sub,
  MapView.includes s sub = true <-> occursIn sub s.
Proof.
  unfold occursIn. induction s as [| c s IH]; intro sub.
  - cbn [MapView.includes]. rewrite startsWith_spec. split.
    + intros [rest H]. exists [], rest. exact H.
    + intros (pre & post & H). destruct pre; [| discriminate H].
      exists post. exact H.
  - cbn [MapView.includes]. rewrite orb_true_iff, startsWith_spec, IH. split.
    + intros [[rest H] | (pre & post & H)].
      * exists [], rest. exact H.
      * exists (c :: pre), post. simpl. now rewrite H.
    + intros (pre & post & H). destruct pre as [| c' pre].
      * left. exists post. exact H.
      * right. injection H as _ H. now exists pre, post.
Qed.

Lemma includes_false : forall s sub,
  ~ occursIn sub s -> MapView.includes s sub = false.
Proof.
  intros s sub H. destruct (MapView.includes s sub) eqn:E; [| reflexivity].
  apply includes_spec in E. contradiction.
Qed.

(** X18. How a map error is reported.  A message that has ["token"],
    ["unauthorized"] or ["401"] anywhere in it gives the invalid-token
    text, whatever else it says; otherwise one that has ["style"] or
    ["403"] gives the style-access text; any other message is shown
    after ["Mapbox error: "].  An error without a message is shown as
    its JSON text, and an event without an error sets nothing. *)
Theorem map_error_report :
  forall (m json : jsstring),
    m <> [] ->
    let e := Some {| MapView.message := Some m; MapView.json := json |} in
    let aboutToken := occursIn (lit "token") m
                      \/ occursIn (lit "unauthorized") m
                      \/ occursIn (lit "401") m in
    let aboutStyle := occursIn (lit "style") m \/ occursIn (lit "403") m in
    (aboutToken ->
     MapView.errorText e
     = Some (lit "Invalid Mapbox token. Please check your token in .env.local"))
    /\
    (~ aboutToken -> aboutStyle ->
     MapView.errorText e
     = Some (lit "Mapbox token does not have access to this style. Try a different token or style."))
    /\
    (~ aboutToken -> ~ aboutStyle ->
     MapView.errorText e = Some (lit "Mapbox error: " ++ m)) /\
    MapView.errorText
      (Some {| MapView.message := None; MapView.json := json |})
    = Some (lit "Mapbox error: " ++ json) /\
    MapView.errorText
      (Some {| MapView.message := Some []; MapView.json := json |})
    = Some (lit "Mapbox error: " ++ json) /\
    MapView.errorText None = None.
Proof.
  intros m json Hm e aboutToken aboutStyle. subst e aboutToken aboutStyle.
  assert (Ht : truthyOpt (Some m) = true) by (destruct m; [now elim Hm | reflexivity]).
  unfold MapView.errorText. cbn [MapView.message MapView.json]. rewrite Ht.
  split; [| split; [| split; [| repeat split]]].
  - intros [H | [H | H]]; apply includes_spec in H; rewrite H;
      now rewrite ?orb_true_r.
  - intros Hno [H | H]; apply includes_spec in H;
      rewrite !includes_false by tauto; rewrite H; now rewrite ?orb_true_r.
  - intros Hno Hno'. now rewrite !includes_false by tauto.
Qed.

Lemma map_error_report_witness :
  let m := lit "Unauthorized style request: invalid token" in
  (m <> [] /\ occursIn (lit "token") m /\ occursIn (lit "style") m) /\
  MapView.errorText
    (Some {| MapView.message := Some m; MapView.json := lit "{}" |})
  = Some (lit "Invalid Mapbox token. Please check your token in .env.local").
Proof.
  intro m.
  assert (Hm : m <> []) by discriminate.
  assert (Ht : occursIn (lit "token") m)
    by (exists (lit "Unauthorized style request: invalid "), []; reflexivity).
  assert (Hs : occursIn (lit "style") m)
    by (exists (lit "Unauthorized "), (lit " request: invalid token");
        reflexivity).
  split; [repeat split; assumption |].
  apply (proj1 (@map_error_report m (lit "{}") Hm)). left. exact Ht.
Defined.

(** X19. The map is created only with a real token.  With no token, an
    empty one or the placeholder ['your_mapbox_token_here'] the mount
    effect reports the missing token and creates no map; from then on
    the load and error listeners do not exist and a capture does
    nothing.  Any other token clears the error and creates the map, and
    mounting again changes nothing. *)
Theorem map_needs_a_real_token :
  forall token,
    let st := MapView.mount true token MapView.initial in
    (token = None \/ token = Some []
     \/ token = Some (lit "your_mapbox_token_here") ->
     MapView.map st = false /\ MapView.mapLoaded st = false /\
     MapView.mapError st
     = Some (lit "Mapbox token not found. Set NEXT_PUBLIC_MAPBOX_TOKEN in .env.local")
     /\
     MapView.onLoad st = st /\
     (forall err, MapView.onError err st = st) /\
     (forall r s, handleCapture st r s = (s, None))) /\
    (forall t,
        token = Some t -> t <> [] -> t <> lit "your_mapbox_token_here" ->
        MapView.map st = true /\ MapView.mapError st = None /\
        (forall container token', MapView.mount container token' st = st) /\
        (forall r s, handleCapture st r s = (s, None)) /\
        (forall image bounds s,
            handleCapture (MapView.onLoad st) (Captured image bounds) s
            = handleImageCapture image bounds s)).
Proof.
  intros token st. subst st. split.
  - intros [-> | [-> | ->]]; repeat split.
  - intros t -> Hne Hph. unfold MapView.mount. cbn [negb orb MapView.map
      MapView.initial truthyOpt].
    assert (Ht : truthy t = true) by (destruct t; [now elim Hne | reflexivity]).
    assert (Hp : str_eqb t (lit "your_mapbox_token_here") = false).
    { destruct (str_eqb t (lit "your_mapbox_token_here")) eqn:E;
        [| reflexivity].
      apply str_eqb_eq in E. contradiction. }
    rewrite Ht, Hp. cbn [negb orb]. repeat split.
    intros container token'. unfold MapView.mount. cbn [MapView.map].
    now rewrite orb_true_r.
Qed.

Lemma map_needs_a_real_token_witness :
  let st := MapView.mount true (Some (lit "your_mapbox_token_here"))
              MapView.initial in
  MapView.map st = false /\
  forall r s, handleCapture st r s = (s, None).
Proof.
  intro st.
  destruct (proj1 (@map_needs_a_real_token
                     (Some (lit "your_mapbox_token_here")))
              (or_intror (or_intror eq_refl))) as (H1 & _ & _ & _ & _ & H2).
  split; assumption.
Defined.
